(** * isyntax2raw: the tile-pyramid writer, embedded and verified

    A shallow embedding of [isyntax2raw/__init__.py] (classes
    [MaxQueuePool] and [WriteTiles]).  Python integers are [Z]; the
    file system, the chunked-array store and the console are one
    explicit state threaded through a small state-and-exception monad;
    the worker pool is a labelled transition system. *)

From Stdlib Require Import ZArith List Lia Bool String Ascii Arith.
From Stdlib Require Import DecimalString DecimalZ DecimalPos.
Import ListNotations.
Local Open Scope Z_scope.

(** ** Python values and exceptions *)

Inductive os_error_kind : Type :=
| FileExistsError
| FileNotFoundError
| IsADirectoryError.

(** Instances of [Exception] that the modelled code can meet. *)
Inductive exception : Type :=
| OSError (kind : os_error_kind) (path : string)
| ZeroDivisionError
| ValueError (msg : string)
| RuntimeError (msg : string)
| KeyError (key : string)
| AttributeError (msg : string)
| LibraryError (msg : string).

(** [BaseException]: what [except Exception] lets through is kept
    apart from what it catches. *)
Inductive base_exception : Type :=
| Exc (e : exception)
| KeyboardInterrupt
| SystemExit.

Inductive result (A : Type) : Type :=
| Ok (a : A)
| Raise (e : base_exception).
Arguments Ok {A} a.
Arguments Raise {A} e.

Definition is_os_error (e : base_exception) : bool :=
  match e with Exc (OSError _ _) => true | _ => false end.

(** [range(n)] for an integer [n]: empty when [n <= 0]. *)
Definition py_range (n : Z) : list Z := map Z.of_nat (seq 0 (Z.to_nat n)).

(** [math.ceil(a / b)] on integers.  The source divides in floating
    point and rounds up; the embedding takes the exact quotient. *)
Definition ceil_div (a b : Z) : result Z :=
  if b =? 0 then Raise (Exc ZeroDivisionError) else Ok (- ((- a) / b)).

(** [int(1 + a / b)]: truncation towards zero of the exact value. *)
Definition int_one_plus_div (a b : Z) : result Z :=
  if b =? 0 then Raise (Exc ZeroDivisionError) else Ok (Z.quot (b + a) b).

(** [str(n)] and [%s] / [%d] of an integer. *)
Definition str (n : Z) : string := NilEmpty.string_of_int (Z.to_int n).

(** ** Paths: [os.path.join] and [os.path.dirname] (posixpath) *)

Definition slash : ascii := "/"%char.
Definition is_slash (c : ascii) : bool := Ascii.eqb c slash.

Definition startswith_slash (s : string) : bool :=
  match s with String c _ => is_slash c | EmptyString => false end.

Definition endswith_slash (s : string) : bool :=
  match rev (list_ascii_of_string s) with c :: _ => is_slash c | [] => false end.

Definition is_empty (s : string) : bool :=
  match s with EmptyString => true | _ => false end.

Definition path_join (a b : string) : string :=
  if startswith_slash b then b
  else if is_empty a || endswith_slash a then (a ++ b)%string
  else (a ++ "/" ++ b)%string.

Fixpoint drop_while (f : ascii -> bool) (l : list ascii) : list ascii :=
  match l with
  | c :: l' => if f c then drop_while f l' else l
  | [] => []
  end.

(** [head = p[:p.rfind('/') + 1]], then trailing slashes stripped
    unless [head] is slashes only.  Computed on the reversed text. *)
Definition dirname (p : string) : string :=
  let head := drop_while (fun c => negb (is_slash c)) (rev (list_ascii_of_string p)) in
  if forallb is_slash head then string_of_list_ascii (rev head)
  else string_of_list_ascii (rev (drop_while is_slash head)).

(** ** The world outside the interpreter *)

(** What a file written by a tile job holds. *)
Inductive file_content : Type :=
| PlanarTiff (planes : list (list (list Z)))
| RgbImage (width height : Z) (pixels : list Z)
| RawBytes (bytes : list Z).

(** One assignment [z[:, y0:y1, x0:x1] = planes] to a dataset. *)
Record array_write : Type := mkArrayWrite {
  aw_y0 : Z; aw_y1 : Z; aw_x0 : Z; aw_x1 : Z;
  aw_planes : list (list (list Z))
}.

(** A dataset of a zarr group: its name, [shape], [chunks] and the
    region assignments it received. *)
Record dataset : Type := mkDataset {
  ds_store : string;
  ds_name : string;
  ds_shape : Z * Z * Z;
  ds_chunks : Z * Z * Z;
  ds_writes : list array_write
}.

Inductive log_line : Type :=
| Printed (text : string)
| Traceback (e : exception).

Record world : Type := mkWorld {
  w_dirs : list string;
  w_files : list (string * file_content);
  w_datasets : list dataset;
  w_log : list log_line;
  w_engine_opens : list string
}.

Definition is_dir (w : world) (p : string) : bool :=
  existsb (String.eqb p) (w_dirs w).

Definition is_file (w : world) (p : string) : bool :=
  existsb (fun f => String.eqb p (fst f)) (w_files w).

(** [os.path.exists] *)
Definition path_exists (w : world) (p : string) : bool :=
  is_dir w p || is_file w p.

(** ** The state-and-exception monad *)

Definition M (A : Type) : Type := world -> result A * world.

Definition ret {A} (a : A) : M A := fun w => (Ok a, w).
Definition raise {A} (e : base_exception) : M A := fun w => (Raise e, w).
Definition bind {A B} (m : M A) (k : A -> M B) : M B :=
  fun w => match m w with
           | (Ok a, w') => k a w'
           | (Raise e, w') => (Raise e, w')
           end.
Definition lift {A} (r : result A) : M A := fun w => (r, w).

Notation "x <- m ;; k" := (bind m (fun x => k))
  (at level 61, m at next level, right associativity).
Notation "m ;;; k" := (bind m (fun _ => k))
  (at level 61, right associativity).

(** A [for] loop whose body updates the loop's local variables. *)
Fixpoint for_each {X S : Type} (xs : list X) (body : X -> S -> M S) (s : S) : M S :=
  match xs with
  | [] => ret s
  | x :: xs' => s' <- body x s ;; for_each xs' body s'
  end.

(** [print(text)] *)
Definition print (text : string) : M unit :=
  fun w => (Ok tt, mkWorld (w_dirs w) (w_files w) (w_datasets w)
                           (w_log w ++ [Printed text]) (w_engine_opens w)).

(** [traceback.print_exc()] inside an [except] clause. *)
Definition print_exc (e : exception) : M unit :=
  fun w => (Ok tt, mkWorld (w_dirs w) (w_files w) (w_datasets w)
                           (w_log w ++ [Traceback e]) (w_engine_opens w)).

(** [os.mkdir(p)]: the path must be new and its parent a directory.
    The empty parent is the current directory. *)
Definition parent_is_dir (w : world) (p : string) : bool :=
  is_empty (dirname p) || is_dir w (dirname p).

Definition os_mkdir (p : string) : M unit :=
  fun w =>
    if path_exists w p then (Raise (Exc (OSError FileExistsError p)), w)
    else if negb (parent_is_dir w p) then (Raise (Exc (OSError FileNotFoundError p)), w)
    else (Ok tt, mkWorld (p :: w_dirs w) (w_files w) (w_datasets w)
                         (w_log w) (w_engine_opens w)).

(** [os.path.exists(p)] as a computation. *)
Definition os_path_exists (p : string) : M bool := fun w => (Ok (path_exists w p), w).

(** [open(p, 'wb')] followed by one write of [c] and the close of the
    [with] block. *)
Definition write_file (p : string) (c : file_content) : M unit :=
  fun w =>
    if is_dir w p then (Raise (Exc (OSError IsADirectoryError p)), w)
    else if negb (parent_is_dir w p) then (Raise (Exc (OSError FileNotFoundError p)), w)
    else (Ok tt, mkWorld (w_dirs w)
                         ((p, c) :: filter (fun f => negb (String.eqb p (fst f))) (w_files w))
                         (w_datasets w) (w_log w) (w_engine_opens w)).

(** ** [WriteTiles]: configuration and patch planning *)

(** The attributes set by [WriteTiles.__init__]. *)
Record WriteTiles : Type := mkWriteTiles {
  tile_width : Z;
  tile_height : Z;
  resolutions : option Z;
  file_type : string;
  max_workers : Z;
  input_path : string;
  slide_directory : string
}.

(** [self.file_type in ("n5", "zarr")] *)
Definition is_chunked (self : WriteTiles) : bool :=
  String.eqb (file_type self) "n5" || String.eqb (file_type self) "zarr".

(** A patch [[x_start, x_end, y_start, y_end, level]]; both ends are
    inclusive, in level-0 coordinates. *)
Record Patch : Type := mkPatch {
  p_x_start : Z; p_x_end : Z; p_y_start : Z; p_y_end : Z; p_level : Z
}.

(** An engine range [[origin, step, end]]. *)
Record DimRange : Type := mkDimRange { dr_origin : Z; dr_step : Z; dr_end : Z }.

(** [math.ceil(self.get_size(dim_range))] *)
Definition get_size_ceil (d : DimRange) : result Z :=
  ceil_div (dr_end d - dr_origin d) (dr_step d).

Definition create_x_directory (self : WriteTiles) (tile_directory : string) (x_start : Z)
  : M unit :=
  if is_chunked self then ret tt
  else
    let x_directory := path_join tile_directory (str x_start) in
    e <- os_path_exists x_directory ;;
    if negb e then os_mkdir x_directory else ret tt.

Definition create_patch_list (self : WriteTiles)
    (image_x_end image_y_end : Z) (tiles tile_size origin : Z * Z) (level : Z)
    (tile_directory : string) : M (list Patch * list (Z * Z)) :=
  let scale := 2 ^ level in
  let tile_size := (fst tile_size * scale, snd tile_size * scale) in
  for_each (py_range (snd tiles))
    (fun y acc =>
       let y_start := snd origin + y * snd tile_size in
       let y_end := Z.min ((y_start + snd tile_size) - scale) image_y_end in
       for_each (py_range (fst tiles))
         (fun x acc =>
            let x_start := fst origin + x * fst tile_size in
            let x_end := Z.min ((x_start + fst tile_size) - scale) image_x_end in
            let patch := mkPatch x_start x_end y_start y_end level in
            let patches := fst acc ++ [patch] in
            let patch_identifier := snd acc ++ [(x, y)] in
            create_x_directory self tile_directory (x * tile_width self) ;;;
            ret (patches, patch_identifier))
         acc)
    ([], []).

(** The geometry [write_pyramid] derives for one level: the pixel
    extents, the tile counts and the arguments of [create_patch_list]. *)
Record LevelGeometry : Type := mkLevelGeometry {
  resolution_x_end : Z;
  resolution_y_end : Z;
  x_tiles : Z;
  y_tiles : Z
}.

Definition level_geometry (self : WriteTiles) (dim_x dim_y : DimRange)
  : result LevelGeometry :=
  match get_size_ceil dim_x with
  | Raise e => Raise e
  | Ok rx =>
    match get_size_ceil dim_y with
    | Raise e => Raise e
    | Ok ry =>
      match ceil_div rx (tile_width self) with
      | Raise e => Raise e
      | Ok xt =>
        match ceil_div ry (tile_height self) with
        | Raise e => Raise e
        | Ok yt => Ok (mkLevelGeometry rx ry xt yt)
        end
      end
    end
  end.


(** The grid the planner is meant to produce, written as a table:
    cell [(x, y)] of a level with [scale = 2 ^ level]. *)
Definition grid_patch (tw th ox oy image_x_end image_y_end level x y : Z) : Patch :=
  let scale := 2 ^ level in
  let xs := ox + x * tw * scale in
  let ys := oy + y * th * scale in
  mkPatch xs (Z.min (xs + tw * scale - scale) image_x_end)
          ys (Z.min (ys + th * scale - scale) image_y_end) level.

(** Row-major enumeration: [y] outer, [x] inner. *)
Definition row_major {A : Type} (f : Z -> Z -> A) (xt yt : Z) : list A :=
  flat_map (fun y => map (fun x => f x y) (py_range xt)) (py_range yt).

Definition no_slash (s : string) : bool :=
  forallb (fun c => negb (is_slash c)) (list_ascii_of_string s).

(** A directory name as [os.path.join] extends it with a separator. *)
Definition plain_dir (d : string) : bool :=
  negb (is_empty d) && negb (endswith_slash d).

(** The worlds in which the column directories of [tile_directory]
    can be made: chunked formats need nothing, the others an existing
    [tile_directory]. *)
Definition planner_ready (self : WriteTiles) (tile_directory : string) (w : world) : Prop :=
  is_chunked self = true \/ (plain_dir tile_directory = true /\ is_dir w tile_directory = true).



(** A worked configuration: 512 by 512 TIFF tiles under [out]. *)
Definition sample_tiles : WriteTiles :=
  mkWriteTiles 512 512 None "tiff" 4 "slide.isyntax" "out".

Definition empty_world : world := mkWorld [] [] [] [] [].

(** [out] and [out/0] exist. *)
Definition sample_world : world := mkWorld ["out/0"%string; "out"%string] [] [] [] [].

(** Two by two tiles written to a zarr group. *)
Definition small_tiles : WriteTiles :=
  mkWriteTiles 2 2 None "zarr" 4 "slide.isyntax" "out".

(** ** [make_planar]: deinterleaving a pixel buffer *)

(** [v[0::3]]; [v[k::3]] is [stride3 (skipn k v)]. *)
Fixpoint stride3 (v : list Z) : list Z :=
  match v with
  | a :: _ :: _ :: rest => a :: stride3 rest
  | a :: _ => [a]
  | [] => []
  end.

(** Rows of a one-dimensional array seen with shape [(h, w)]. *)
Fixpoint rows (h w : nat) (v : list Z) : list (list Z) :=
  match h with
  | O => []
  | S h' => firstn w v :: rows h' w (skipn w v)
  end.

(** [v.shape = (h, w)]: the size of the shape must be the array's.
    The dimensions are natural numbers; numpy's [-1] placeholder is
    outside the model. *)
Definition set_shape (h w : nat) (v : list Z) : result (list (list Z)) :=
  if Nat.eqb (List.length v) (h * w) then Ok (rows h w v)
  else Raise (Exc (ValueError "cannot reshape array")).

Definition make_planar (pixels : list Z) (tile_width tile_height : nat)
  : result (list (list (list Z))) :=
  let r := stride3 pixels in
  let g := stride3 (skipn 1 pixels) in
  let b := stride3 (skipn 2 pixels) in
  match set_shape tile_height tile_width r with
  | Raise e => Raise e
  | Ok r =>
    match set_shape tile_height tile_width g with
    | Raise e => Raise e
    | Ok g =>
      match set_shape tile_height tile_width b with
      | Raise e => Raise e
      | Ok b => Ok [r; g; b]
      end
    end
  end.

(** The inverse layout: [R0 G0 B0 R1 G1 B1 ...] from three flat planes. *)
Fixpoint interleave3 (r g b : list Z) : list Z :=
  match r, g, b with
  | x :: r', y :: g', z :: b' => x :: y :: z :: interleave3 r' g' b'
  | _, _, _ => []
  end.

Definition reinterleave (planes : list (list (list Z))) : list Z :=
  match planes with
  | [r; g; b] => interleave3 (List.concat r) (List.concat g) (List.concat b)
  | _ => []
  end.

(** ** Tile file names *)

Definition get_tile_filename (self : WriteTiles) (tile_directory : string)
    (x_start y_start : Z) : string :=
  let filename :=
    path_join (path_join tile_directory (str x_start))
              (str y_start ++ "." ++ file_type self)%string in
  if is_chunked self then tile_directory else filename.

(** The name [write_pyramid] gives the tile of grid cell [patch_id]:
    the cell indices scaled by the tile size. *)
Definition tile_filename_of_cell (self : WriteTiles) (tile_directory : string)
    (patch_id : Z * Z) : string :=
  get_tile_filename self tile_directory
    (fst patch_id * tile_width self) (snd patch_id * tile_height self).

(** A text without the character [c]. *)
Definition lacks (c : ascii) (s : string) : bool :=
  forallb (fun a => negb (Ascii.eqb a c)) (list_ascii_of_string s).

(** Nothing that exists in [w] is missing from [w']. *)
Definition grows (w w' : world) : Prop :=
  forall p, path_exists w p = true -> path_exists w' p = true.

(** ** The dispatch loop: matching ready regions with their cells *)

(** A region handle of the engine; two handles are equal when they
    are the same object, here the same number. *)
Definition region := nat.

(** [regions.index(region)]: position of the first equal element. *)
Fixpoint list_index (r : region) (regions : list region) : option nat :=
  match regions with
  | [] => None
  | a :: rest =>
      if Nat.eqb a r then Some O
      else match list_index r rest with Some i => Some (S i) | None => None end
  end.

(** [regions.remove(region)]: the first equal element goes. *)
Fixpoint remove_region (r : region) (regions : list region) : list region :=
  match regions with
  | [] => []
  | a :: rest => if Nat.eqb a r then rest else a :: remove_region r rest
  end.

Definition patch_id_eqb (p q : Z * Z) : bool :=
  (fst p =? fst q) && (snd p =? snd q).

(** [patch_identifier.remove(patch_id)] *)
Fixpoint remove_patch_id (p : Z * Z) (ids : list (Z * Z)) : list (Z * Z) :=
  match ids with
  | [] => []
  | a :: rest => if patch_id_eqb a p then rest else a :: remove_patch_id p rest
  end.

(** One ready region of the inner loop of [write_pyramid]: its cell is
    read at the region's position in the pending list, then both
    leave their lists. *)
Definition take_ready (r : region) (pending : list region * list (Z * Z))
  : result ((Z * Z) * (list region * list (Z * Z))) :=
  match list_index r (fst pending) with
  | None => Raise (Exc (ValueError "is not in list"))
  | Some i =>
      match nth_error (snd pending) i with
      | None => Raise (Exc (LibraryError "IndexError: list index out of range"))
      | Some patch_id =>
          Ok (patch_id, (remove_region r (fst pending),
                         remove_patch_id patch_id (snd pending)))
      end
  end.

(** The ready regions in the order the engine delivers them; the
    result lists every region with the cell it was given. *)
Fixpoint dispatch (ready : list region) (pending : list region * list (Z * Z))
  : result (list (region * (Z * Z)) * (list region * list (Z * Z))) :=
  match ready with
  | [] => Ok ([], pending)
  | r :: ready' =>
      match take_ready r pending with
      | Raise e => Raise e
      | Ok (patch_id, pending') =>
          match dispatch ready' pending' with
          | Raise e => Raise e
          | Ok (jobs, rest) => Ok ((r, patch_id) :: jobs, rest)
          end
      end
  end.

(** ** Tiles: extent, dataset and destination *)

(** Lines 339 to 341 of [write_pyramid]: the pixel extent of a region,
    from its range and the steps of the level. *)
Definition tile_extent (dim_x dim_y : DimRange) (view_range : Patch) : result (Z * Z) :=
  match int_one_plus_div (p_x_end view_range - p_x_start view_range) (dr_step dim_x) with
  | Raise e => Raise e
  | Ok width =>
      match int_one_plus_div (p_y_end view_range - p_y_start view_range) (dr_step dim_y) with
      | Raise e => Raise e
      | Ok height => Ok (width, height)
      end
  end.

(** The slab [[:, y_start:y_end, x_start:x_end]] that [write_tile]
    assigns for grid cell [patch_id] with a tile of [width] by
    [height] pixels: [(y_start, y_end, x_start, x_end)]. *)
Definition tile_slab (self : WriteTiles) (patch_id : Z * Z) (width height : Z)
  : Z * Z * Z * Z :=
  let x_start := fst patch_id * tile_width self in
  let y_start := snd patch_id * tile_height self in
  (y_start, y_start + height, x_start, x_start + width).

(** The [shape] that [write_pyramid] asks of [create_tile_directory]
    for a level: [(3, resolution_y_end + 1, resolution_x_end + 1)]. *)
Definition level_shape (g : LevelGeometry) : Z * Z * Z :=
  (3, resolution_y_end g + 1, resolution_x_end g + 1).

(** ** [MaxQueuePool]: a bounded queue in front of an executor *)

(** The pool as its caller and its workers see it: the initial value
    and the current value of the [BoundedSemaphore], and the number of
    futures submitted whose done-callback has not run yet. *)
Record pool_state : Type := mkPool {
  pool_bound : Z;
  pool_permits : Z;
  pool_in_flight : Z
}.

(** [MaxQueuePool(executor, max_queue_size)]: [BoundedSemaphore]
    refuses a negative initial value. *)
Definition pool_init (max_queue_size : Z) : result pool_state :=
  if max_queue_size <? 0
  then Raise (Exc (ValueError "semaphore initial value must be >= 0"))
  else Ok (mkPool max_queue_size max_queue_size 0).

(** What can happen to a pool: the caller submits a task, or a task
    finishes and the executor runs its done-callback. *)
Inductive pool_event : Type :=
| Submit
| TaskDone.

Inductive pool_outcome : Type :=
| Next (s : pool_state)
| Waits
| Idle
| Fails (e : exception).

(** [submit]: [acquire] waits while the semaphore is at zero, then the
    task goes to the executor. *)
Definition pool_submit (s : pool_state) : pool_outcome :=
  if pool_permits s <=? 0 then Waits
  else Next (mkPool (pool_bound s) (pool_permits s - 1) (pool_in_flight s + 1)).

(** [pool_queue_callback]: [release] raises [ValueError] rather than
    exceed the initial value.  Without a task in flight there is
    nothing to finish. *)
Definition pool_task_done (s : pool_state) : pool_outcome :=
  if pool_in_flight s <=? 0 then Idle
  else if pool_bound s <=? pool_permits s
  then Fails (ValueError "Semaphore released too many times")
  else Next (mkPool (pool_bound s) (pool_permits s + 1) (pool_in_flight s - 1)).

Definition pool_step (s : pool_state) (e : pool_event) : pool_outcome :=
  match e with
  | Submit => pool_submit s
  | TaskDone => pool_task_done s
  end.

(** A history of events, as far as it goes. *)
Fixpoint pool_run (events : list pool_event) (s : pool_state) : pool_outcome :=
  match events with
  | [] => Next s
  | e :: events' =>
      match pool_step s e with
      | Next s' => pool_run events' s'
      | stopped => stopped
      end
  end.

(** The pool of [write_pyramid]: [MaxQueuePool(ThreadPoolExecutor,
    self.max_workers)] gives [max_workers] to the queue bound; the
    executor keeps its default number of threads. *)
Definition tile_pool (self : WriteTiles) : result pool_state :=
  pool_init (max_workers self).

(** ** The chunked store *)

Definition same_dataset (store name : string) (d : dataset) : bool :=
  String.eqb (ds_store d) store && String.eqb (ds_name d) name.

(** [zarr.open(store)[name]] *)
Definition find_dataset (w : world) (store name : string) : option dataset :=
  find (same_dataset store name) (w_datasets w).

(** A chunk length of [None] stands for the whole dimension. *)
Definition chunk_length (c : option Z) (extent : Z) : Z :=
  match c with Some c => c | None => extent end.

(** [group.create_dataset(name, shape=shape, chunks=chunks, dtype='B')]
    in the group at [store]; the group is made on first use, and an
    array of that name must not be there yet. *)
Definition create_dataset (store name : string) (shape : Z * Z * Z)
    (chunks : option Z * Z * Z) : M unit :=
  fun w =>
    match find_dataset w store name with
    | Some _ => (Raise (Exc (LibraryError "ContainsArrayError")), w)
    | None =>
        let '(c0, c1, c2) := chunks in
        let '(s0, s1, s2) := shape in
        (Ok tt, mkWorld (w_dirs w) (w_files w)
                        (mkDataset store name shape (chunk_length c0 s0, c1, c2) []
                         :: w_datasets w)
                        (w_log w) (w_engine_opens w))
    end.

Definition create_tile_directory (self : WriteTiles) (resolution width height : Z)
  : M string :=
  let tile_directory := path_join (slide_directory self) (str resolution) in
  if is_chunked self then
    let tile_directory :=
      path_join (slide_directory self) ("pyramid." ++ file_type self)%string in
    create_dataset tile_directory (str resolution) (3, height, width)
                   (None, tile_height self, tile_width self) ;;;
    ret tile_directory
  else
    os_mkdir tile_directory ;;;
    ret tile_directory.

(** A slice bound [i] in a dimension of length [n]: negative bounds
    count from the end, and everything is clipped to [0 .. n]. *)
Definition slice_bound (i n : Z) : Z :=
  if i <? 0 then Z.max 0 (i + n) else Z.min i n.

(** The length of [start:stop] in a dimension of length [n]. *)
Definition slice_length (start stop n : Z) : Z :=
  Z.max 0 (slice_bound stop n - slice_bound start n).

Definition shape_eqb (s t : Z * Z * Z) : bool :=
  let '(s0, s1, s2) := s in
  let '(t0, t1, t2) := t in
  (s0 =? t0) && (s1 =? t1) && (s2 =? t2).

Definition add_write (a : array_write) (d : dataset) : dataset :=
  mkDataset (ds_store d) (ds_name d) (ds_shape d) (ds_chunks d) (ds_writes d ++ [a]).

(** [zarr.open(store)[name][:, y0:y1, x0:x1] = planes], where [planes]
    has shape [value_shape]: the array must exist and the shape of the
    value must be the shape of the selection. *)
Definition zarr_assign (store name : string) (y0 y1 x0 x1 : Z)
    (value_shape : Z * Z * Z) (planes : list (list (list Z))) : M unit :=
  fun w =>
    match find_dataset w store name with
    | None => (Raise (Exc (KeyError name)), w)
    | Some d =>
        let '(c, h, wd) := ds_shape d in
        if shape_eqb value_shape (c, slice_length y0 y1 h, slice_length x0 x1 wd)
        then (Ok tt,
              mkWorld (w_dirs w) (w_files w)
                      (map (fun d' => if same_dataset store name d'
                                      then add_write (mkArrayWrite y0 y1 x0 x1 planes) d'
                                      else d')
                           (w_datasets w))
                      (w_log w) (w_engine_opens w))
        else (Raise (Exc (ValueError "parameter 'value': wrong shape")), w)
    end.

(** ** [write_tile]: one tile, and whatever goes wrong with it *)

(** [try: body  except Exception: handler]: what is not an
    [Exception] passes through. *)
Definition try_except {A : Type} (body : M A) (handler : exception -> M A) : M A :=
  fun w =>
    match body w with
    | (Raise (Exc e), w') => handler e w'
    | other => other
    end.

(** [make_planar] on the integers [write_tile] is given.  A negative
    extent is rejected; numpy's reading of [-1] as a dimension to
    infer is outside the model. *)
Definition make_planar_int (pixels : list Z) (tile_width tile_height : Z)
  : result (list (list (list Z))) :=
  if (tile_width <? 0) || (tile_height <? 0)
  then Raise (Exc (ValueError "cannot reshape array"))
  else make_planar pixels (Z.to_nat tile_width) (Z.to_nat tile_height).

(** [Image.frombuffer('RGB', (w, h), pixels, 'raw', 'RGB', 0, 1)] *)
Definition image_frombuffer (tile_width tile_height : Z) (pixels : list Z)
  : result file_content :=
  if (tile_width <? 0) || (tile_height <? 0)
  then Raise (Exc (ValueError "Width and height must be >= 0"))
  else if Z.of_nat (List.length pixels) <? tile_width * tile_height * 3
  then Raise (Exc (ValueError "not enough image data"))
  else Ok (RgbImage tile_width tile_height pixels).

(** The line printed for a tile that could not be written. *)
Definition failed_to_write (x_start x_end y_start y_end : Z) (filename : string) : string :=
  ("Failed to write tile [:, " ++ str x_start ++ ":" ++ str x_end ++ ", "
   ++ str y_start ++ ":" ++ str y_end ++ "] to " ++ filename)%string.

(** [write_tile], the closure of [write_pyramid].  [encoder] tells
    whether the imaging library can save under a file name: it picks
    the encoder by the extension and raises for one it does not know,
    after the file has been opened for writing. *)
Definition write_tile (self : WriteTiles) (encoder : string -> bool)
    (pixels : list Z) (resolution x_start y_start tile_width tile_height : Z)
    (filename : string) : M unit :=
  let x_end := x_start + tile_width in
  let y_end := y_start + tile_height in
  try_except
    (if is_chunked self then
       planes <- lift (make_planar_int pixels tile_width tile_height) ;;
       zarr_assign filename (str resolution) y_start y_end x_start x_end
                   (3, tile_height, tile_width) planes
     else if String.eqb (file_type self) "tiff" then
       planes <- lift (make_planar_int pixels tile_width tile_height) ;;
       write_file filename (PlanarTiff planes)
     else
       image <- lift (image_frombuffer tile_width tile_height pixels) ;;
       write_file filename (RawBytes []) ;;;
       if encoder filename then write_file filename image
       else raise (Exc (ValueError "unknown file extension")))
    (fun e =>
       print_exc e ;;;
       print (failed_to_write x_start x_end y_start y_end filename)).

(** ** The layout of a level on disk *)

(** Nothing exists below the directory [d]. *)
Definition empty_below (d : string) (w : world) : Prop :=
  forall s, path_exists w (d ++ "/" ++ s) = false.

(** From [w] to [w'] no file has changed and every new directory is a
    column directory of [tile_directory]. *)
Definition only_adds_columns (tile_directory : string) (w w' : world) : Prop :=
  w_files w' = w_files w
  /\ forall p, is_dir w' p = true ->
       is_dir w p = true \/ exists c, p = path_join tile_directory (str c).

(** ** The pixel engine: opening a slide, its images *)

(** [self.pixel_engine["in"].open(input_path, "ficom")]; [readable]
    tells which inputs the engine accepts. *)
Definition engine_open (readable : string -> bool) (path : string) : M unit :=
  fun w =>
    if readable path
    then (Ok tt, mkWorld (w_dirs w) (w_files w) (w_datasets w) (w_log w)
                         (w_engine_opens w ++ [path]))
    else (Raise (Exc (LibraryError "PixelEngine: cannot open input")), w).

(** [WriteTiles.__init__] *)
Definition init (readable : string -> bool)
    (tile_width tile_height : Z) (resolutions : option Z) (file_type : string)
    (max_workers : Z) (input_path output_path : string) : M WriteTiles :=
  let self := mkWriteTiles tile_width tile_height resolutions file_type max_workers
                           input_path output_path in
  os_mkdir (slide_directory self) ;;;
  engine_open readable input_path ;;;
  ret self.

(** What the conversion reads of an image of the slide. *)
Record image_container : Type := mkImage {
  IMAGE_TYPE : string;
  IMAGE_DATA : list Z;
  IMAGE_VALID_DATA_ENVELOPES : option (list (list Z))
}.

(** [find_image_type]: the first image of the type, in index order. *)
Definition find_image_type (images : list image_container) (image_type : string)
  : option image_container :=
  find (fun c => String.eqb image_type (IMAGE_TYPE c)) images.

Definition write_image_type (self : WriteTiles) (images : list image_container)
    (image_type : string) : M unit :=
  match find_image_type images image_type with
  | Some image_container =>
      let pixels := IMAGE_DATA image_container in
      let image_file := path_join (slide_directory self) (image_type ++ ".jpg")%string in
      write_file image_file (RawBytes pixels) ;;;
      print ("wrote " ++ image_type ++ " image")%string
  | None => ret tt
  end.

Definition write_label_image (self : WriteTiles) (images : list image_container) : M unit :=
  write_image_type self images "LABELIMAGE".

Definition write_macro_image (self : WriteTiles) (images : list image_container) : M unit :=
  write_image_type self images "MACROIMAGE".

(** The first lines of [write_pyramid]: the valid data envelopes of
    the slide image, or the exception that ends the call. *)
Definition scanned_areas (images : list image_container) : result (list (list Z)) :=
  match find_image_type images "WSI" with
  | None =>
      Raise (Exc (AttributeError
                    "'NoneType' object has no attribute 'IMAGE_VALID_DATA_ENVELOPES'"))
  | Some image_container =>
      match IMAGE_VALID_DATA_ENVELOPES image_container with
      | None => Raise (Exc (RuntimeError "No valid data envelopes"))
      | Some areas => Ok areas
      end
  end.


(** * Properties *)

(** ** Loops and ranges *)

Lemma py_range_length (n : Z) : List.length (py_range n) = Z.to_nat n.
Proof. unfold py_range. now rewrite length_map, length_seq. Qed.

Lemma py_range_nth (n i : Z) :
  0 <= i < n -> nth_error (py_range n) (Z.to_nat i) = Some i.
Proof.
  intros H. unfold py_range.
  rewrite nth_error_map, nth_error_seq.
  destruct (Nat.ltb_spec (Z.to_nat i) (Z.to_nat n)); [|lia].
  simpl. f_equal. lia.
Qed.

Lemma py_range_In (n i : Z) : In i (py_range n) <-> 0 <= i < n.
Proof.
  unfold py_range. rewrite in_map_iff. split.
  - intros (k & <- & Hk). apply in_seq in Hk. lia.
  - intros H. exists (Z.to_nat i). split; [lia|]. apply in_seq. lia.
Qed.

(** ** Paths *)

Lemma uint_no_slash (d : Decimal.uint) : no_slash (NilEmpty.string_of_uint d) = true.
Proof. induction d; simpl; auto. Qed.

Lemma str_no_slash (n : Z) : no_slash (str n) = true.
Proof.
  unfold str, NilEmpty.string_of_int.
  destruct (Z.to_int n); [apply uint_no_slash|].
  unfold no_slash. simpl. apply uint_no_slash.
Qed.

Lemma list_ascii_of_string_app (a b : string) :
  list_ascii_of_string (a ++ b) = (list_ascii_of_string a ++ list_ascii_of_string b)%list.
Proof. induction a; simpl; [reflexivity | now rewrite IHa]. Qed.

Lemma drop_while_app_all (f : ascii -> bool) (l r : list ascii) :
  forallb f l = true -> drop_while f (l ++ r)%list = drop_while f r.
Proof.
  induction l; simpl; intros H; [reflexivity|].
  apply andb_true_iff in H. destruct H as [-> H]. auto.
Qed.

Lemma no_slash_startswith (s : string) : no_slash s = true -> startswith_slash s = false.
Proof.
  destruct s; simpl; [reflexivity|]. unfold no_slash. simpl.
  intros H. apply andb_true_iff in H. destruct H as [H _].
  now apply negb_true_iff in H.
Qed.

Lemma dirname_path_join (d s : string) :
  plain_dir d = true -> no_slash s = true -> dirname (path_join d s) = d.
Proof.
  unfold plain_dir. intros Hd Hs.
  apply andb_true_iff in Hd. destruct Hd as [He Hsl].
  apply negb_true_iff in He, Hsl.
  unfold path_join. rewrite (no_slash_startswith _ Hs), He, Hsl. simpl.
  unfold dirname. rewrite !list_ascii_of_string_app. simpl.
  rewrite rev_app_distr. simpl.
  rewrite <- app_assoc. simpl.
  rewrite drop_while_app_all.
  2:{ unfold no_slash in Hs. rewrite forallb_forall in *.
      intros c Hc. apply Hs. now apply in_rev. }
  unfold endswith_slash in Hsl.
  destruct (rev (list_ascii_of_string d)) as [|c l] eqn:Hr.
  - destruct d; [discriminate|]. simpl in Hr.
    destruct (rev (list_ascii_of_string d)); discriminate.
  - simpl. rewrite Hsl. cbn [andb].
    rewrite <- Hr, rev_involutive. apply string_of_list_ascii_of_string.
Qed.

(** ** The monad's loops *)

(** A loop whose body cannot fail while an invariant of the world
    holds computes the fold of the body's pure part. *)
Lemma for_each_ok {X S : Type} (I : world -> Prop) (f : X -> S -> S)
    (xs : list X) (body : X -> S -> M S) :
  (forall x s w, In x xs -> I w -> exists w', body x s w = (Ok (f x s), w') /\ I w') ->
  forall s w, I w ->
    exists w', for_each xs body s w = (Ok (fold_left (fun a x => f x a) xs s), w') /\ I w'.
Proof.
  induction xs as [|x xs IH]; intros Hb s w Hw; simpl.
  - exists w. split; [reflexivity | assumption].
  - destruct (Hb x s w (or_introl eq_refl) Hw) as (w1 & E1 & H1).
    unfold bind. rewrite E1.
    apply IH; [|assumption].
    intros x' s' w' Hin. apply Hb. now right.
Qed.

Lemma fold_left_snoc_pair {A B : Type} (f : Z -> A) (g : Z -> B) (xs : list Z)
    (acc : list A * list B) :
  fold_left (fun a x => (fst a ++ [f x], snd a ++ [g x])%list) xs acc
  = ((fst acc ++ map f xs)%list, (snd acc ++ map g xs)%list).
Proof.
  revert acc. induction xs as [|x xs IH]; intros [ps ids]; simpl.
  - now rewrite !app_nil_r.
  - rewrite IH. simpl. now rewrite <- !app_assoc.
Qed.

Lemma fold_left_rows {A B : Type} (f : Z -> list A) (g : Z -> list B) (ys : list Z)
    (acc : list A * list B) :
  fold_left (fun a y => (fst a ++ f y, snd a ++ g y)%list) ys acc
  = ((fst acc ++ flat_map f ys)%list, (snd acc ++ flat_map g ys)%list).
Proof.
  revert acc. induction ys as [|y ys IH]; intros [ps ids]; simpl.
  - now rewrite !app_nil_r.
  - rewrite IH. simpl. now rewrite <- !app_assoc.
Qed.

(** ** [create_x_directory] and [create_patch_list] *)

Lemma create_x_directory_ok (self : WriteTiles) (td : string) (n : Z) (w : world) :
  planner_ready self td w ->
  exists w', create_x_directory self td n w = (Ok tt, w') /\ planner_ready self td w'.
Proof.
  intros H. unfold create_x_directory.
  destruct (is_chunked self) eqn:Hc.
  - exists w. split; [reflexivity | assumption].
  - destruct H as [H | [Hp Hd]]; [congruence|].
    unfold bind, os_path_exists.
    destruct (path_exists w (path_join td (str n))) eqn:He; simpl.
    + exists w. split; [reflexivity|]. right. auto.
    + unfold os_mkdir. rewrite He. unfold parent_is_dir.
      rewrite (dirname_path_join td (str n) Hp (str_no_slash n)), Hd.
      rewrite orb_true_r. simpl.
      eexists. split; [reflexivity|]. right. split; [assumption|].
      unfold is_dir in *. simpl. rewrite Hd. apply orb_true_r.
Qed.

(** What [create_patch_list] returns: the table of [grid_patch] in
    row-major order, next to the cell indices in the same order. *)
Lemma create_patch_list_ok (self : WriteTiles) (ixe iye xt yt tw th ox oy level : Z)
    (td : string) (w : world) :
  planner_ready self td w ->
  exists w',
    create_patch_list self ixe iye (xt, yt) (tw, th) (ox, oy) level td w
    = (Ok (row_major (grid_patch tw th ox oy ixe iye level) xt yt,
           row_major (fun x y => (x, y)) xt yt), w')
    /\ planner_ready self td w'.
Proof.
  intros Hw. unfold create_patch_list. cbn [fst snd].
  set (scale := 2 ^ level).
  edestruct (for_each_ok (planner_ready self td)
    (fun y (acc : list Patch * list (Z * Z)) =>
       ((fst acc ++ map (fun x => grid_patch tw th ox oy ixe iye level x y) (py_range xt))%list,
        (snd acc ++ map (fun x => (x, y)) (py_range xt))%list))
    (py_range yt)) as (w' & E & Hw'); [| exact Hw | ].
  2:{ rewrite E. exists w'. split; [|assumption].
      rewrite (fold_left_rows
        (fun y => map (fun x => grid_patch tw th ox oy ixe iye level x y) (py_range xt))
        (fun y => map (fun x => (x, y)) (py_range xt))).
      reflexivity. }
  intros y acc w0 _ Hw0.
  edestruct (for_each_ok (planner_ready self td)
    (fun x (a : list Patch * list (Z * Z)) =>
       ((fst a ++ [grid_patch tw th ox oy ixe iye level x y])%list,
        (snd a ++ [(x, y)])%list))
    (py_range xt)) as (w1 & E1 & Hw1); [| exact Hw0 | ].
  2:{ rewrite E1. exists w1. split; [|assumption].
      rewrite (fold_left_snoc_pair (fun x => grid_patch tw th ox oy ixe iye level x y)
                 (fun x => (x, y))).
      reflexivity. }
  intros x a w2 _ Hw2.
  destruct (create_x_directory_ok self td (x * tile_width self) w2 Hw2) as (w3 & E3 & Hw3).
  unfold bind. rewrite E3. exists w3. split; [|assumption].
  unfold ret, grid_patch. fold scale. cbn [fst snd].
  now rewrite !Z.mul_assoc.
Qed.

(** ** The row-major table *)

Lemma nth_error_flat_map_rows {A B : Type} (g : A -> list B) (n : nat) (l : list A) :
  (forall a, In a l -> List.length (g a) = n) ->
  forall (i j : nat) (a : A),
    nth_error l i = Some a -> (j < n)%nat ->
    nth_error (flat_map g l) (i * n + j) = nth_error (g a) j.
Proof.
  induction l as [|b l IH]; intros Hlen i j a Hi Hj.
  - destruct i; discriminate.
  - simpl. destruct i as [|i]; simpl in Hi.
    + injection Hi as ->. simpl.
      rewrite nth_error_app1; [reflexivity|].
      rewrite (Hlen a); [assumption | now left].
    + rewrite nth_error_app2; rewrite (Hlen b (or_introl eq_refl)); [|simpl; lia].
      replace (S i * n + j - n)%nat with (i * n + j)%nat by (simpl; lia).
      apply IH; auto. intros a' Ha'. apply Hlen. now right.
Qed.



Lemma row_major_nth {A : Type} (f : Z -> Z -> A) (xt yt x y : Z) :
  0 <= x < xt -> 0 <= y < yt ->
  nth_error (row_major f xt yt) (Z.to_nat (y * xt + x)) = Some (f x y).
Proof.
  intros Hx Hy. unfold row_major.
  replace (Z.to_nat (y * xt + x)) with (Z.to_nat y * Z.to_nat xt + Z.to_nat x)%nat by nia.
  rewrite (nth_error_flat_map_rows _ (Z.to_nat xt) _) with (a := y).
  - rewrite nth_error_map, py_range_nth by assumption. reflexivity.
  - intros a _. now rewrite length_map, py_range_length.
  - now apply py_range_nth.
  - lia.
Qed.

Lemma row_major_In {A : Type} (f : Z -> Z -> A) (xt yt : Z) (a : A) :
  In a (row_major f xt yt) <-> exists x y, 0 <= x < xt /\ 0 <= y < yt /\ a = f x y.
Proof.
  unfold row_major. rewrite in_flat_map. split.
  - intros (y & Hy & Ha). apply in_map_iff in Ha. destruct Ha as (x & <- & Hx).
    exists x, y. rewrite py_range_In in Hx, Hy. auto.
  - intros (x & y & Hx & Hy & ->). exists y. split; [now apply py_range_In|].
    apply in_map_iff. exists x. split; [reflexivity | now apply py_range_In].
Qed.

(** C2.  For a level [level] with [scale = 2 ^ level] and every cell
    [(x, y)] of the [x_tiles] by [y_tiles] grid, [create_patch_list]
    returns, at position [y * x_tiles + x] of its patch list (row-major
    order, [y] outer and [x] inner), the patch
    [[x_start, x_end, y_start, y_end, level]] with
    [x_start = origin_x + x * tile_width * scale],
    [x_end = min (x_start + tile_width * scale - scale) image_x_end],
    and the same along [y]; the identifier at that position is [(x, y)]. *)
Theorem C2_create_patch_list_cell (self : WriteTiles)
    (image_x_end image_y_end x_tiles y_tiles origin_x origin_y level : Z)
    (tile_directory : string) (w : world) (x y : Z) :
  planner_ready self tile_directory w ->
  0 <= x < x_tiles -> 0 <= y < y_tiles ->
  let scale := 2 ^ level in
  let x_start := origin_x + x * tile_width self * scale in
  let x_end := Z.min (x_start + tile_width self * scale - scale) image_x_end in
  let y_start := origin_y + y * tile_height self * scale in
  let y_end := Z.min (y_start + tile_height self * scale - scale) image_y_end in
  exists patches ids w',
    create_patch_list self image_x_end image_y_end (x_tiles, y_tiles)
      (tile_width self, tile_height self) (origin_x, origin_y) level tile_directory w
    = (Ok (patches, ids), w')
    /\ nth_error patches (Z.to_nat (y * x_tiles + x))
       = Some (mkPatch x_start x_end y_start y_end level)
    /\ nth_error ids (Z.to_nat (y * x_tiles + x)) = Some (x, y).
Proof.
  intros Hw Hx Hy scale x_start x_end y_start y_end.
  destruct (create_patch_list_ok self image_x_end image_y_end x_tiles y_tiles
              (tile_width self) (tile_height self) origin_x origin_y level
              tile_directory w Hw) as (w' & E & _).
  eexists _, _, w'. split; [exact E|].
  split; rewrite row_major_nth by assumption; reflexivity.
Qed.

Lemma C2_create_patch_list_cell_witness :
  exists patches ids w',
    create_patch_list sample_tiles 599 599 (2, 2) (512, 512) (0, 0) 0 "out/0" sample_world
    = (Ok (patches, ids), w')
    /\ nth_error patches 3 = Some (mkPatch 512 599 512 599 0)
    /\ nth_error ids 3 = Some (1, 1).
Proof.
  apply (C2_create_patch_list_cell sample_tiles 599 599 2 2 0 0 0 "out/0" sample_world 1 1).
  - right. split; reflexivity.
  - lia.
  - lia.
Defined.

(** ** Rounding up *)

Lemma ceil_bounds (a b : Z) :
  0 < b -> a <= (- ((- a) / b)) * b < a + b.
Proof.
  intros Hb.
  pose proof (Z.div_mod (- a) b ltac:(lia)) as E.
  pose proof (Z.mod_pos_bound (- a) b Hb) as R.
  rewrite Z.mul_opp_l, (Z.mul_comm _ b). lia.
Qed.


Lemma ceil_div_pos (a b : Z) : 0 < b -> ceil_div a b = Ok (- ((- a) / b)).
Proof. intros Hb. unfold ceil_div. destruct (Z.eqb_spec b 0); [lia | reflexivity]. Qed.

Lemma level_geometry_ok (self : WriteTiles) (dim_x dim_y : DimRange) :
  0 < tile_width self -> 0 < tile_height self ->
  0 < dr_step dim_x -> 0 < dr_step dim_y ->
  let rx := - ((- (dr_end dim_x - dr_origin dim_x)) / dr_step dim_x) in
  let ry := - ((- (dr_end dim_y - dr_origin dim_y)) / dr_step dim_y) in
  level_geometry self dim_x dim_y
  = Ok (mkLevelGeometry rx ry (- ((- rx) / tile_width self)) (- ((- ry) / tile_height self))).
Proof.
  intros Hw Hh Hx Hy rx ry. unfold level_geometry, get_size_ceil.
  rewrite (ceil_div_pos _ (dr_step dim_x)) by assumption.
  rewrite (ceil_div_pos _ (dr_step dim_y)) by assumption.
  rewrite (ceil_div_pos _ (tile_width self)) by assumption.
  rewrite (ceil_div_pos _ (tile_height self)) by assumption.
  reflexivity.
Qed.

(** ** Cells of the grid *)






(** ** Level geometry *)




(** ** Column directories *)

(** Chunked formats make no column directory: the planner leaves the
    world as it found it. *)
Theorem create_patch_list_chunked_pure (self : WriteTiles)
    (ixe iye xt yt tw th ox oy level : Z) (td : string) (w : world) :
  is_chunked self = true ->
  snd (create_patch_list self ixe iye (xt, yt) (tw, th) (ox, oy) level td w) = w.
Proof.
  intros Hc.
  assert (Hret : forall n, create_x_directory self td n = ret tt).
  { intros n. unfold create_x_directory. now rewrite Hc. }
  unfold create_patch_list. cbn [fst snd].
  generalize (@nil Patch, @nil (Z * Z)).
  induction (py_range yt) as [|y ys IHy]; intros acc; [reflexivity|].
  cbn [for_each]. unfold bind at 1.
  match goal with
  | |- context [for_each (py_range xt) ?b acc w] =>
      assert (Hin : forall l a, exists a', for_each l b a w = (Ok a', w))
  end.
  { induction l as [|x xs IHx]; intros a; [eexists; reflexivity|].
    cbn [for_each]. unfold bind at 1. rewrite Hret. unfold bind, ret.
    apply IHx. }
  destruct (Hin (py_range xt) acc) as (a' & ->). apply IHy.
Qed.

Lemma create_patch_list_chunked_pure_witness :
  snd (create_patch_list small_tiles 8 8 (2, 2) (2, 2) (0, 0) 1 "out/pyramid.zarr" empty_world)
  = empty_world.
Proof.
  apply (create_patch_list_chunked_pure small_tiles 8 8 2 2 2 2 0 0 1 "out/pyramid.zarr"
           empty_world).
  reflexivity.
Defined.

(** [create_x_directory] is idempotent: once it has succeeded, calling
    it again with the same arguments succeeds and changes nothing. *)
Theorem create_x_directory_idempotent (self : WriteTiles) (td : string) (n : Z)
    (w w1 : world) :
  create_x_directory self td n w = (Ok tt, w1) ->
  create_x_directory self td n w1 = (Ok tt, w1).
Proof.
  unfold create_x_directory.
  destruct (is_chunked self); [intros E; now injection E as <- |].
  unfold bind, os_path_exists.
  destruct (path_exists w (path_join td (str n))) eqn:He; cbn [negb].
  - intros E. injection E as <-. now rewrite He.
  - unfold os_mkdir. rewrite He.
    destruct (negb (parent_is_dir w (path_join td (str n)))); [discriminate|].
    intros E. injection E as <-.
    unfold path_exists, is_dir. cbn [w_dirs existsb].
    now rewrite String.eqb_refl.
Qed.

Lemma create_x_directory_idempotent_witness :
  create_x_directory sample_tiles "out/0" 512
    (mkWorld ["out/0/512"; "out/0"; "out"]%string [] [] [] [])
  = (Ok tt, mkWorld ["out/0/512"; "out/0"; "out"]%string [] [] [] []).
Proof.
  apply (create_x_directory_idempotent sample_tiles "out/0" 512 sample_world).
  reflexivity.
Defined.




(** ** Deinterleaving *)

Lemma stride3_nth (d : Z) (i : nat) : forall v, nth i (stride3 v) d = nth (3 * i) v d.
Proof.
  induction i as [|i IH]; intros v.
  - destruct v as [|a [|b [|c v]]]; reflexivity.
  - replace (3 * S i)%nat with (S (S (S (3 * i)))) by lia.
    destruct v as [|a [|b [|c v]]]; cbn [stride3 nth].
    + reflexivity.
    + destruct i; reflexivity.
    + destruct i; destruct (3 * _)%nat; reflexivity.
    + apply IH.
Qed.

Lemma list_ind3 (P : list Z -> Prop) :
  P [] -> (forall a, P [a]) -> (forall a b, P [a; b]) ->
  (forall a b c v, P v -> P (a :: b :: c :: v)) ->
  forall v, P v.
Proof.
  intros H0 H1 H2 H3.
  assert (H : forall n v, (List.length v <= n)%nat -> P v).
  { induction n as [|n IH]; intros v Hv.
    - destruct v; [assumption | simpl in Hv; lia].
    - destruct v as [|a [|b [|c v]]]; auto.
      apply H3. apply IH. simpl in Hv. lia. }
  intros v. now apply (H (List.length v)).
Qed.

Lemma stride3_length (v : list Z) :
  List.length (stride3 v) = ((List.length v + 2) / 3)%nat.
Proof.
  induction v as [| a | a b | a b c v IH] using list_ind3; try reflexivity.
  cbn [stride3 List.length]. rewrite IH.
  replace (S (S (S (List.length v))) + 2)%nat with (1 * 3 + (List.length v + 2))%nat by lia.
  rewrite Nat.div_add_l by lia. lia.
Qed.

Lemma interleave3_stride3 (v : list Z) :
  (List.length v mod 3 = 0)%nat ->
  interleave3 (stride3 v) (stride3 (skipn 1 v)) (stride3 (skipn 2 v)) = v.
Proof.
  induction v as [| a | a b | a b c v IH] using list_ind3; intros H;
    try reflexivity; try discriminate.
  cbn [List.length] in H.
  replace (S (S (S (List.length v)))) with (List.length v + 1 * 3)%nat in H by lia.
  rewrite Nat.Div0.mod_add in H.
  specialize (IH H).
  destruct v as [|x [|y v']]; [reflexivity | discriminate |].
  cbn [skipn stride3 interleave3] in *. now rewrite IH.
Qed.

Lemma rows_concat (h w : nat) : forall v,
  List.length v = (h * w)%nat -> List.concat (rows h w v) = v.
Proof.
  induction h as [|h IH]; intros v Hv.
  - destruct v; [reflexivity | discriminate].
  - cbn [rows List.concat]. rewrite IH.
    + apply firstn_skipn.
    + rewrite length_skipn. simpl in Hv. lia.
Qed.

Lemma rows_nth (d : Z) (w : nat) : forall h y x v,
  (y < h)%nat -> (x < w)%nat ->
  nth x (nth y (rows h w v) []) d = nth (y * w + x) v d.
Proof.
  induction h as [|h IH]; intros y x v Hy Hx; [lia|].
  destruct y as [|y]; cbn [rows nth].
  - rewrite nth_firstn. destruct (Nat.ltb_spec x w); [reflexivity | lia].
  - rewrite IH by lia. rewrite nth_skipn. f_equal. simpl. lia.
Qed.

Lemma set_shape_ok (h w : nat) (v : list Z) :
  List.length v = (h * w)%nat -> set_shape h w v = Ok (rows h w v).
Proof. intros H. unfold set_shape. now rewrite H, Nat.eqb_refl. Qed.

Lemma make_planar_planes (pixels : list Z) (width height : nat) :
  List.length pixels = (3 * width * height)%nat ->
  exists planes,
    make_planar pixels width height = Ok planes
    /\ List.length planes = 3%nat
    /\ (forall c y x, (c < 3)%nat -> (y < height)%nat -> (x < width)%nat ->
          nth x (nth y (nth c planes []) []) 0
          = nth (3 * (y * width + x) + c) pixels 0)
    /\ reinterleave planes = pixels.
Proof.
  intros Hlen.
  assert (Hr : List.length (stride3 pixels) = (height * width)%nat).
  { rewrite stride3_length, Hlen.
    replace (3 * width * height + 2)%nat with (2 + (height * width) * 3)%nat by lia.
    now rewrite Nat.div_add. }
  assert (Hg : List.length (stride3 (skipn 1 pixels)) = (height * width)%nat).
  { rewrite stride3_length, length_skipn, Hlen.
    destruct (height * width)%nat as [|k] eqn:E.
    - replace (3 * width * height)%nat with 0%nat by lia. reflexivity.
    - replace (3 * width * height - 1 + 2)%nat with (1 + S k * 3)%nat by lia.
      now rewrite Nat.div_add. }
  assert (Hb : List.length (stride3 (skipn 2 pixels)) = (height * width)%nat).
  { rewrite stride3_length, length_skipn, Hlen.
    destruct (height * width)%nat as [|k] eqn:E.
    - replace (3 * width * height)%nat with 0%nat by lia. reflexivity.
    - replace (3 * width * height - 2 + 2)%nat with (0 + S k * 3)%nat by lia.
      now rewrite Nat.div_add. }
  eexists. split.
  { unfold make_planar. rewrite !set_shape_ok by assumption. reflexivity. }
  split; [reflexivity|]. split.
  - intros c y x Hc Hy Hx.
    destruct c as [|[|[|c]]]; [| | | lia]; cbn [nth];
      rewrite rows_nth by assumption; rewrite stride3_nth;
      rewrite ?nth_skipn; f_equal; lia.
  - cbn [reinterleave]. rewrite !rows_concat by assumption.
    apply interleave3_stride3. rewrite Hlen.
    replace (3 * width * height)%nat with ((width * height) * 3)%nat by lia.
    apply Nat.Div0.mod_mul.
Qed.



(** [make_planar] accepts a buffer exactly when it holds
    [3 * width * height] bytes: any other length makes the shape
    assignment raise [ValueError]. *)
Theorem make_planar_rejects_other_sizes (pixels : list Z) (width height : nat) :
  List.length pixels <> (3 * width * height)%nat ->
  make_planar pixels width height = Raise (Exc (ValueError "cannot reshape array")).
Proof.
  intros Hlen. unfold make_planar, set_shape.
  rewrite !stride3_length, !length_skipn.
  destruct (Nat.eqb_spec ((List.length pixels + 2) / 3) (height * width)) as [E1|]; [|reflexivity].
  destruct (Nat.eqb_spec ((List.length pixels - 1 + 2) / 3) (height * width)) as [E2|]; [|reflexivity].
  destruct (Nat.eqb_spec ((List.length pixels - 2 + 2) / 3) (height * width)) as [E3|]; [|reflexivity].
  exfalso. apply Hlen.
  pose proof (Nat.div_mod_eq (List.length pixels + 2) 3) as D1.
  pose proof (Nat.mod_upper_bound (List.length pixels + 2) 3 ltac:(lia)) as B1.
  pose proof (Nat.div_mod_eq (List.length pixels - 1 + 2) 3) as D2.
  pose proof (Nat.mod_upper_bound (List.length pixels - 1 + 2) 3 ltac:(lia)) as B2.
  pose proof (Nat.div_mod_eq (List.length pixels - 2 + 2) 3) as D3.
  pose proof (Nat.mod_upper_bound (List.length pixels - 2 + 2) 3 ltac:(lia)) as B3.
  rewrite E1 in D1. rewrite E2 in D2. rewrite E3 in D3. nia.
Qed.

Lemma make_planar_rejects_other_sizes_witness :
  make_planar [10; 20; 30; 11; 21] 2 1 = Raise (Exc (ValueError "cannot reshape array")).
Proof.
  apply (make_planar_rejects_other_sizes [10; 20; 30; 11; 21] 2 1). simpl. lia.
Defined.

(** ** Tile file names *)

Lemma str_inj (n m : Z) : str n = str m -> n = m.
Proof.
  unfold str. intros E. apply DecimalZ.to_int_inj.
  pose proof (NilEmpty.isi (Z.to_int n)) as Hn.
  rewrite E, NilEmpty.isi in Hn. now injection Hn.
Qed.

Lemma string_of_uint_nonempty (d : Decimal.uint) :
  d <> Decimal.Nil -> is_empty (NilEmpty.string_of_uint d) = false.
Proof. destruct d; simpl; congruence. Qed.

Lemma str_nonempty (n : Z) : is_empty (str n) = false.
Proof.
  unfold str. destruct n; simpl; try reflexivity.
  apply string_of_uint_nonempty, DecimalPos.Unsigned.to_uint_nonnil.
Qed.

Lemma uint_lacks_dot (d : Decimal.uint) : lacks "." (NilEmpty.string_of_uint d) = true.
Proof. induction d; simpl; auto. Qed.

Lemma str_lacks_dot (n : Z) : lacks "." (str n) = true.
Proof.
  unfold str, NilEmpty.string_of_int.
  destruct (Z.to_int n); [apply uint_lacks_dot|].
  unfold lacks. simpl. apply uint_lacks_dot.
Qed.

Lemma string_app_assoc (a b c : string) : ((a ++ b) ++ c = a ++ (b ++ c))%string.
Proof. induction a; simpl; [reflexivity | now rewrite IHa]. Qed.

Lemma append_inv_head (a s1 s2 : string) : (a ++ s1 = a ++ s2)%string -> s1 = s2.
Proof. induction a; simpl; intros E; [assumption | injection E; auto]. Qed.

(** A text is cut in one way only at the first occurrence of [c]. *)
Lemma split_first (c : ascii) : forall s1 s2 r1 r2 : string,
  lacks c s1 = true -> lacks c s2 = true ->
  (s1 ++ String c r1 = s2 ++ String c r2)%string -> s1 = s2 /\ r1 = r2.
Proof.
  unfold lacks.
  induction s1 as [|a s1 IH]; intros [|b s2] r1 r2 H1 H2 E; simpl in *.
  - injection E as <-. auto.
  - injection E as <- _. rewrite Ascii.eqb_refl in H2. discriminate.
  - injection E as -> _. rewrite Ascii.eqb_refl in H1. discriminate.
  - injection E as <- E.
    apply andb_true_iff in H1, H2.
    destruct (IH s2 r1 r2 (proj2 H1) (proj2 H2) E) as [-> ->]. auto.
Qed.

Lemma path_join_plain (d s : string) :
  plain_dir d = true -> startswith_slash s = false ->
  path_join d s = (d ++ "/" ++ s)%string.
Proof.
  unfold plain_dir, path_join. intros Hd ->.
  apply andb_true_iff in Hd. destruct Hd as [He Hs].
  apply negb_true_iff in He, Hs. now rewrite He, Hs.
Qed.

Lemma endswith_slash_app (d s : string) :
  is_empty s = false -> endswith_slash (d ++ s) = endswith_slash s.
Proof.
  unfold endswith_slash. intros Hs.
  rewrite list_ascii_of_string_app, rev_app_distr.
  destruct s as [|a s]; [discriminate|]. simpl.
  destruct (rev (list_ascii_of_string s)); reflexivity.
Qed.

Lemma no_slash_endswith (s : string) : no_slash s = true -> endswith_slash s = false.
Proof.
  unfold no_slash, endswith_slash. intros H.
  destruct (rev (list_ascii_of_string s)) as [|c l] eqn:E; [reflexivity|].
  rewrite forallb_forall in H.
  apply negb_true_iff, H, in_rev. rewrite E. now left.
Qed.

Lemma is_empty_app_r (d s : string) : is_empty s = false -> is_empty (d ++ s) = false.
Proof. destruct d; simpl; auto. Qed.

(** The column directory of a plain tile directory is plain. *)
Lemma column_directory_plain (d : string) (n : Z) :
  plain_dir d = true -> plain_dir (path_join d (str n)) = true.
Proof.
  intros Hd.
  rewrite path_join_plain by (auto using no_slash_startswith, str_no_slash).
  unfold plain_dir.
  assert (Hne : is_empty ("/" ++ str n) = false) by reflexivity.
  rewrite is_empty_app_r by assumption.
  rewrite endswith_slash_app by assumption.
  rewrite (endswith_slash_app "/" (str n) (str_nonempty n)).
  now rewrite (no_slash_endswith _ (str_no_slash n)).
Qed.

Lemma tile_name_startswith (y : Z) (ext : string) :
  startswith_slash (str y ++ "." ++ ext) = false.
Proof.
  pose proof (no_slash_startswith _ (str_no_slash y)) as H.
  destruct (str y); [reflexivity | exact H].
Qed.

Lemma get_tile_filename_discrete (self : WriteTiles) (td : string) (x y : Z) :
  is_chunked self = false -> plain_dir td = true ->
  get_tile_filename self td x y
  = (td ++ "/" ++ str x ++ "/" ++ str y ++ "." ++ file_type self)%string.
Proof.
  intros Hc Hd. unfold get_tile_filename. rewrite Hc.
  rewrite (path_join_plain _ _ (column_directory_plain td x Hd) (tile_name_startswith y _)).
  rewrite path_join_plain by (auto using no_slash_startswith, str_no_slash).
  now rewrite !string_app_assoc.
Qed.

Lemma tile_filename_of_cell_inj (self : WriteTiles) (td : string) (id1 id2 : Z * Z) :
  is_chunked self = false -> plain_dir td = true ->
  tile_width self <> 0 -> tile_height self <> 0 ->
  tile_filename_of_cell self td id1 = tile_filename_of_cell self td id2 ->
  id1 = id2.
Proof.
  intros Hc Hd Hw Hh E. unfold tile_filename_of_cell in E.
  rewrite !get_tile_filename_discrete in E by assumption.
  apply append_inv_head in E. simpl in E. injection E as E.
  apply split_first in E; try apply str_no_slash.
  destruct E as [Ex E].
  apply split_first in E; try apply str_lacks_dot.
  destruct E as [Ey _].
  apply str_inj in Ex, Ey.
  destruct id1 as [x1 y1], id2 as [x2 y2]. cbn [fst snd] in *.
  f_equal; nia.
Qed.

(** Tiles of different grid cells never share a file: for a
    discrete-file format, a plain tile directory and non-zero tile
    sizes, the file name [write_pyramid] derives from a cell
    determines the cell. *)
Theorem tile_filename_injective (self : WriteTiles) (td : string) (id1 id2 : Z * Z) :
  is_chunked self = false -> plain_dir td = true ->
  tile_width self <> 0 -> tile_height self <> 0 ->
  tile_filename_of_cell self td id1 = tile_filename_of_cell self td id2 ->
  id1 = id2.
Proof. exact (tile_filename_of_cell_inj self td id1 id2). Qed.

Lemma tile_filename_injective_witness :
  tile_filename_of_cell sample_tiles "out/0" (1, 0)
  = tile_filename_of_cell sample_tiles "out/0" (1, 0)
  /\ (1, 0) = (1, 0).
Proof.
  split; [reflexivity|].
  apply (tile_filename_injective sample_tiles "out/0" (1, 0) (1, 0));
    try reflexivity; simpl; lia.
Defined.

Lemma no_slash_app (a b : string) :
  no_slash a = true -> no_slash b = true -> no_slash (a ++ b) = true.
Proof.
  unfold no_slash. intros Ha Hb.
  rewrite list_ascii_of_string_app, forallb_app. now rewrite Ha, Hb.
Qed.

(** A tile file lies directly in the column directory that the planner
    makes for its [x_start]. *)
Lemma tile_file_in_column_directory (self : WriteTiles) (td : string) (x y : Z) :
  is_chunked self = false -> plain_dir td = true -> no_slash (file_type self) = true ->
  dirname (get_tile_filename self td x y) = path_join td (str x).
Proof.
  intros Hc Hd He. unfold get_tile_filename. rewrite Hc.
  apply dirname_path_join; [now apply column_directory_plain|].
  apply no_slash_app; [apply str_no_slash|].
  apply no_slash_app; [reflexivity | assumption].
Qed.

(** ** What planning leaves on disk *)

Lemma grows_refl (w : world) : grows w w.
Proof. intros p H. exact H. Qed.

Lemma grows_trans (w1 w2 w3 : world) : grows w1 w2 -> grows w2 w3 -> grows w1 w3.
Proof. intros H12 H23 p H. auto. Qed.

Lemma create_x_directory_grows (self : WriteTiles) (td : string) (n : Z)
    (w w' : world) (r : result unit) :
  create_x_directory self td n w = (r, w') ->
  grows w w'
  /\ (r = Ok tt -> is_chunked self = false ->
      path_exists w' (path_join td (str n)) = true).
Proof.
  unfold create_x_directory.
  destruct (is_chunked self).
  { intros E. injection E as <- <-. split; [apply grows_refl | discriminate]. }
  unfold bind, os_path_exists.
  destruct (path_exists w (path_join td (str n))) eqn:He; cbn [negb].
  { intros E. injection E as <- <-. split; [apply grows_refl | auto]. }
  unfold os_mkdir. rewrite He.
  destruct (negb (parent_is_dir w (path_join td (str n)))).
  { intros E. injection E as <- <-. split; [apply grows_refl | discriminate]. }
  intros E. injection E as <- <-. split.
  - intros p Hp. unfold path_exists, is_dir, is_file in *. cbn [w_dirs w_files existsb].
    apply orb_true_iff in Hp. destruct Hp as [Hp | Hp]; rewrite Hp;
      rewrite ?orb_true_r; reflexivity.
  - intros _ _. unfold path_exists, is_dir. cbn [w_dirs existsb].
    now rewrite String.eqb_refl.
Qed.

Lemma for_each_grows {X S : Type} (body : X -> S -> M S) :
  (forall x s w r w', body x s w = (r, w') -> grows w w') ->
  forall xs s w r w', for_each xs body s w = (r, w') -> grows w w'.
Proof.
  intros Hb. induction xs as [|x xs IH]; intros s w r w' E; simpl in E.
  - injection E as <- <-. apply grows_refl.
  - unfold bind in E. destruct (body x s w) as [[s1|e] w1] eqn:E1.
    + eapply grows_trans; [eapply Hb; exact E1 | eapply IH; exact E].
    + injection E as <- <-. eapply Hb; exact E1.
Qed.

Lemma for_each_post {X S : Type} (P : X -> world -> Prop) (body : X -> S -> M S) :
  (forall x s w r w', body x s w = (r, w') -> grows w w') ->
  (forall x s w s' w', body x s w = (Ok s', w') -> P x w') ->
  (forall x w w', P x w -> grows w w' -> P x w') ->
  forall xs s w s' w', for_each xs body s w = (Ok s', w') ->
  forall x, In x xs -> P x w'.
Proof.
  intros Hg Hp Hm. induction xs as [|x xs IH]; intros s w s' w' E a Ha; [destruct Ha|].
  simpl in E. unfold bind in E.
  destruct (body x s w) as [[s1|e] w1] eqn:E1; [|discriminate].
  destruct Ha as [<- | Ha].
  - eapply Hm; [eapply Hp; exact E1|].
    eapply for_each_grows; [exact Hg | exact E].
  - eapply IH; eassumption.
Qed.

Lemma bind_ret_inv {A B : Type} (m : M A) (v : B) (w w' : world) (r : result B) :
  bind m (fun _ => ret v) w = (r, w') ->
  exists r0, m w = (r0, w') /\ (forall s, r = Ok s -> exists a, r0 = Ok a).
Proof.
  unfold bind, ret. destruct (m w) as [[a|e] w1]; intros E; injection E as <- <-.
  - eexists. split; [reflexivity | eauto].
  - eexists. split; [reflexivity | discriminate].
Qed.

Lemma planning_makes_columns (self : WriteTiles)
    (ixe iye xt yt ox oy level : Z) (td : string) (w : world) :
  is_chunked self = false -> plain_dir td = true -> is_dir w td = true ->
  no_slash (file_type self) = true ->
  exists patches ids w',
    create_patch_list self ixe iye (xt, yt) (tile_width self, tile_height self)
      (ox, oy) level td w = (Ok (patches, ids), w')
    /\ grows w w'
    /\ forall id, In id ids ->
         path_exists w' (dirname (tile_filename_of_cell self td id)) = true.
Proof.
  intros Hc Hd Hw He.
  destruct (create_patch_list_ok self ixe iye xt yt (tile_width self) (tile_height self)
              ox oy level td w (or_intror (conj Hd Hw))) as (w' & E & _).
  eexists _, _, w'. split; [exact E|].
  unfold create_patch_list in E. cbn [fst snd] in E.
  assert (Hinner : forall (x : Z) (s : list Patch * list (Z * Z)) (w0 w1 : world)
                     (v : list Patch * list (Z * Z)) (r : result (list Patch * list (Z * Z))),
            bind (create_x_directory self td (x * tile_width self)) (fun _ => ret v) w0 = (r, w1) ->
            grows w0 w1
            /\ (forall s', r = Ok s' ->
                  path_exists w1 (path_join td (str (x * tile_width self))) = true)).
  { intros x s w0 w1 v r Eb.
    apply bind_ret_inv in Eb. destruct Eb as (r0 & E0 & Hr).
    apply create_x_directory_grows in E0. destruct E0 as [Hg Hp].
    split; [exact Hg|]. intros s' ->.
    destruct (Hr s' eq_refl) as ([] & ->). auto. }
  assert (Hmono : forall (p : string) (w0 w1 : world),
            path_exists w0 p = true -> grows w0 w1 -> path_exists w1 p = true)
    by (intros p w0 w1 H G; auto).
  split.
  - eapply for_each_grows; [|exact E].
    intros y s w0 r w1 Ey. eapply for_each_grows; [|exact Ey].
    intros x s0 w2 r0 w3 Ex. eapply Hinner; [exact s0 | exact Ex].
  - intros id Hid. apply row_major_In in Hid.
    destruct Hid as (x & y & Hx & Hy & ->).
    unfold tile_filename_of_cell. cbn [fst snd].
    rewrite tile_file_in_column_directory by assumption.
    apply py_range_In in Hx, Hy.
    revert x Hx.
    eapply (for_each_post
              (fun (_ : Z) (w0 : world) =>
                 forall x, In x (py_range xt) ->
                   path_exists w0 (path_join td (str (x * tile_width self))) = true));
      [ | | | exact E | exact Hy].
    + intros y0 s w0 r w1 Ey. eapply for_each_grows; [|exact Ey].
      intros x s0 w2 r0 w3 Ex. eapply Hinner; [exact s0 | exact Ex].
    + intros y0 s w0 s' w1 Ey.
      eapply (for_each_post
                (fun (x : Z) (w2 : world) =>
                   path_exists w2 (path_join td (str (x * tile_width self))) = true));
        [ | | | exact Ey].
      * intros x s0 w2 r0 w3 Ex. eapply Hinner; [exact s0 | exact Ex].
      * intros x s0 w2 s1 w3 Ex. eapply Hinner; [exact s0 | exact Ex | reflexivity].
      * intros x w2 w3 H G. eapply Hmono; eassumption.
    + intros y0 w0 w1 H G x Hx. eapply Hmono; [apply H; exact Hx | exact G].
Qed.

(** Planning prepares the ground for writing: for a discrete-file
    format, once [create_patch_list] has run in a world where the tile
    directory exists, the directory part of every planned tile's file
    name exists, and nothing that existed before has gone. *)
Theorem planned_tiles_have_directories (self : WriteTiles)
    (ixe iye xt yt ox oy level : Z) (td : string) (w : world) :
  is_chunked self = false -> plain_dir td = true -> is_dir w td = true ->
  no_slash (file_type self) = true ->
  exists patches ids w',
    create_patch_list self ixe iye (xt, yt) (tile_width self, tile_height self)
      (ox, oy) level td w = (Ok (patches, ids), w')
    /\ grows w w'
    /\ forall id, In id ids ->
         path_exists w' (dirname (tile_filename_of_cell self td id)) = true.
Proof. exact (planning_makes_columns self ixe iye xt yt ox oy level td w). Qed.

Lemma planned_tiles_have_directories_witness :
  exists patches ids w',
    create_patch_list sample_tiles 599 599 (2, 2) (512, 512) (0, 0) 0 "out/0" sample_world
    = (Ok (patches, ids), w')
    /\ grows sample_world w'
    /\ forall id, In id ids ->
         path_exists w' (dirname (tile_filename_of_cell sample_tiles "out/0" id)) = true.
Proof.
  apply (planned_tiles_have_directories sample_tiles 599 599 2 2 0 0 0 "out/0" sample_world);
    reflexivity.
Defined.

(** ** Ready regions and their cells *)

Lemma patch_id_eqb_eq (p q : Z * Z) : patch_id_eqb p q = true <-> p = q.
Proof.
  destruct p as [a b], q as [c d]. unfold patch_id_eqb. cbn [fst snd].
  rewrite andb_true_iff, !Z.eqb_eq. split; [intros [-> ->]; reflexivity|].
  intros E. injection E as -> ->. auto.
Qed.

Lemma take_ready_paired : forall (rs : list region) (ids : list (Z * Z)) (r : region),
  List.length rs = List.length ids -> NoDup ids -> In r rs ->
  exists pid rs' ids',
    take_ready r (rs, ids) = Ok (pid, (rs', ids'))
    /\ In (r, pid) (combine rs ids)
    /\ List.length rs' = List.length ids'
    /\ S (List.length rs') = List.length rs
    /\ NoDup ids'
    /\ (forall q, In q (combine rs' ids') -> In q (combine rs ids))
    /\ (forall r', In r' rs -> r' <> r -> In r' rs').
Proof.
  unfold take_ready. cbn [fst snd].
  induction rs as [|a rs IH]; intros [|b ids] r Hlen Hnd Hin;
    try discriminate; [destruct Hin|].
  cbn [list_index remove_region].
  destruct (Nat.eqb_spec a r) as [->|Hne].
  - exists b, rs, ids. cbn [nth_error remove_patch_id].
    assert (Hb : patch_id_eqb b b = true) by now apply patch_id_eqb_eq.
    rewrite Hb. inversion Hnd; subst.
    repeat split; simpl in *; auto; try lia.
    intros r' [E | H] Hr; [congruence | assumption].
  - destruct Hin as [E | Hin]; [congruence|].
    inversion Hnd as [|? ? Hnb Hnd']; subst.
    destruct (IH ids r ltac:(simpl in Hlen; lia) Hnd' Hin)
      as (pid & rs' & ids' & E & Hp & Hl & Hs & Hn & Hsub & Hkeep).
    destruct (list_index r rs) as [i|]; [|discriminate].
    destruct (nth_error ids i) as [pid0|] eqn:En; [|discriminate].
    injection E as -> <- <-.
    assert (Hpin : In pid ids) by (eapply nth_error_In; exact En).
    assert (Hbp : patch_id_eqb b pid = false).
    { apply not_true_is_false. intros H. apply patch_id_eqb_eq in H. subst. contradiction. }
    exists pid, (a :: remove_region r rs), (b :: remove_patch_id pid ids).
    cbn [nth_error remove_patch_id]. rewrite En, Hbp.
    repeat split; simpl; auto; try lia.
    + constructor; [|assumption].
      intros Hb. apply Hnb.
      assert (Hsubids : forall q, In q (remove_patch_id pid ids) -> In q ids).
      { clear. induction ids as [|c ids IH]; simpl; [auto|].
        destruct (patch_id_eqb c pid); simpl; intuition. }
      auto.
    + intros q [<- | Hq]; [now left | right; auto].
    + intros r' [<- | Hr'] Hr; [now left | right; auto].
Qed.

Lemma dispatch_pairs : forall (ready rs : list region) (ids : list (Z * Z)),
  List.length rs = List.length ids -> NoDup ids ->
  NoDup ready -> incl ready rs ->
  exists jobs rs' ids',
    dispatch ready (rs, ids) = Ok (jobs, (rs', ids'))
    /\ map fst jobs = ready
    /\ (forall j, In j jobs -> In j (combine rs ids))
    /\ List.length rs' = List.length ids'
    /\ (List.length rs' + List.length ready = List.length rs)%nat.
Proof.
  induction ready as [|r ready IH]; intros rs ids Hlen Hnd Hr Hincl.
  - exists [], rs, ids. simpl. repeat split; auto; try lia; try tauto.
  - inversion Hr as [|? ? Hnr Hr']; subst.
    destruct (take_ready_paired rs ids r Hlen Hnd (Hincl r (or_introl eq_refl)))
      as (pid & rs1 & ids1 & E & Hp & Hl & Hs & Hn & Hsub & Hkeep).
    assert (Hincl' : incl ready rs1).
    { intros r' H'. apply Hkeep; [apply Hincl; now right|].
      intros ->. contradiction. }
    destruct (IH rs1 ids1 Hl Hn Hr' Hincl')
      as (jobs & rs' & ids' & E' & Hm & Hj & Hl' & Hs').
    exists ((r, pid) :: jobs), rs', ids'.
    cbn [dispatch]. rewrite E, E'.
    repeat split; simpl; auto; try lia.
    + now rewrite Hm.
    + intros j [<- | H]; [assumption | auto].
Qed.

(** Whatever the order in which the engine delivers the regions, each
    ready region is given the cell that stood at its own position:
    when the pending regions and cells have the same length and the
    cells are pairwise distinct, processing any duplicate-free
    selection of pending regions never fails, emits the regions in
    delivery order, pairs each with the cell it was paired with in
    the original lists, and shortens both lists by the number
    processed. *)
Theorem dispatch_keeps_pairing : forall (ready rs : list region) (ids : list (Z * Z)),
  List.length rs = List.length ids -> NoDup ids ->
  NoDup ready -> incl ready rs ->
  exists jobs rs' ids',
    dispatch ready (rs, ids) = Ok (jobs, (rs', ids'))
    /\ map fst jobs = ready
    /\ (forall j, In j jobs -> In j (combine rs ids))
    /\ List.length rs' = List.length ids'
    /\ (List.length rs' + List.length ready = List.length rs)%nat.
Proof. exact (dispatch_pairs). Qed.

Lemma dispatch_keeps_pairing_witness :
  exists jobs rs' ids',
    dispatch [7; 5]%nat ([5; 6; 7]%nat, [(0, 0); (1, 0); (0, 1)]) = Ok (jobs, (rs', ids'))
    /\ map fst jobs = [7; 5]%nat
    /\ (forall j, In j jobs -> In j (combine [5; 6; 7]%nat [(0, 0); (1, 0); (0, 1)]))
    /\ List.length rs' = List.length ids'
    /\ (List.length rs' + List.length [7; 5]%nat = List.length [5; 6; 7]%nat)%nat.
Proof.
  apply (dispatch_keeps_pairing [7; 5]%nat [5; 6; 7]%nat [(0, 0); (1, 0); (0, 1)]).
  - reflexivity.
  - repeat constructor; simpl; intuition discriminate.
  - repeat constructor; simpl; intuition discriminate.
  - intros r [<- | [<- | []]]; simpl; auto.
Defined.

(** A region that is not pending (delivered twice, or never
    requested) stops the loop: [regions.index] raises [ValueError]
    and neither list changes. *)
Theorem take_ready_unknown_region (r : region) (rs : list region) (ids : list (Z * Z)) :
  ~ In r rs -> take_ready r (rs, ids) = Raise (Exc (ValueError "is not in list")).
Proof.
  intros Hr. unfold take_ready. cbn [fst].
  assert (E : list_index r rs = None).
  { induction rs as [|a rs IH]; [reflexivity|]. simpl.
    destruct (Nat.eqb_spec a r) as [->|Hne]; [exfalso; apply Hr; now left|].
    rewrite IH; [reflexivity|]. intros H. apply Hr. now right. }
  now rewrite E.
Qed.

Lemma take_ready_unknown_region_witness :
  take_ready 9%nat ([5; 6; 7]%nat, [(0, 0); (1, 0); (0, 1)])
  = Raise (Exc (ValueError "is not in list")).
Proof.
  apply (take_ready_unknown_region 9%nat [5; 6; 7]%nat [(0, 0); (1, 0); (0, 1)]).
  simpl. intuition discriminate.
Defined.

(** ** Tile extents against the shape of the level *)

Lemma extent_1d (tw s D x : Z) :
  0 < tw -> 0 < s ->
  0 <= x < - ((- (- ((- D) / s))) / tw) ->
  let a := Z.min (tw * s - s) (D - x * tw * s) in
  let width := Z.quot (s + a) s in
  1 <= width <= tw
  /\ x * tw + width <= - ((- D) / s) + 1
  /\ (x + 1 < - ((- (- ((- D) / s))) / tw) -> width = tw).
Proof.
  intros Htw Hs Hx a width.
  set (rx := - ((- D) / s)) in *.
  pose proof (ceil_bounds D s Hs) as Brx. fold rx in Brx.
  pose proof (ceil_bounds rx tw Htw) as Bxt.
  set (xt := - ((- rx) / tw)) in *.
  assert (Hlt : x * tw < rx) by nia.
  assert (Ha : 0 <= a) by (unfold a; apply Z.min_glb; nia).
  assert (Hw : width = 1 + a / s).
  { unfold width. rewrite Z.quot_div_nonneg by lia.
    replace (s + a) with (a + 1 * s) by ring.
    rewrite Z.div_add by lia. ring. }
  pose proof (Z.div_mod a s ltac:(lia)) as Da.
  pose proof (Z.mod_pos_bound a s Hs) as Ra.
  assert (Hq0 : 0 <= a / s) by (apply Z.div_pos; lia).
  assert (Hq1 : a / s <= tw - 1).
  { assert (a <= (tw - 1) * s) by (unfold a; etransitivity; [apply Z.le_min_l|]; lia).
    apply Z.div_le_upper_bound; lia. }
  assert (Hq2 : x * tw + a / s <= rx).
  { assert (a <= D - x * tw * s) by (unfold a; apply Z.le_min_r).
    assert ((x * tw + a / s) * s <= rx * s) by nia.
    nia. }
  rewrite Hw. repeat split; try lia.
  intros Hnext.
  assert (Hfull : (x + 1) * tw < rx) by nia.
  assert (tw * s - s <= D - x * tw * s) by nia.
  assert (Ea : a = (tw - 1) * s) by (unfold a; rewrite Z.min_l; lia).
  rewrite Ea, Z.div_mul by lia. ring.
Qed.

Lemma tile_extent_in_grid (self : WriteTiles) (dim_x dim_y : DimRange)
    (level : Z) (g : LevelGeometry) (x y : Z) :
  0 < tile_width self -> 0 < tile_height self -> 0 <= level ->
  dr_step dim_x = 2 ^ level -> dr_step dim_y = 2 ^ level ->
  level_geometry self dim_x dim_y = Ok g ->
  0 <= x < x_tiles g -> 0 <= y < y_tiles g ->
  exists width height,
    tile_extent dim_x dim_y
      (grid_patch (tile_width self) (tile_height self)
                  (dr_origin dim_x) (dr_origin dim_y) (dr_end dim_x) (dr_end dim_y)
                  level x y) = Ok (width, height)
    /\ 1 <= width <= tile_width self /\ 1 <= height <= tile_height self
    /\ (x + 1 < x_tiles g -> width = tile_width self)
    /\ (y + 1 < y_tiles g -> height = tile_height self)
    /\ let '(y_start, y_end, x_start, x_end) := tile_slab self (x, y) width height in
       let '(_, shape_y, shape_x) := level_shape g in
       0 <= y_start /\ y_end <= shape_y /\ 0 <= x_start /\ x_end <= shape_x.
Proof.
  intros Htw Hth Hl Sx Sy Hg Hx Hy.
  assert (Hs : 0 < 2 ^ level) by (apply Z.pow_pos_nonneg; lia).
  rewrite level_geometry_ok in Hg by lia.
  injection Hg as <-. cbn [x_tiles y_tiles resolution_x_end resolution_y_end] in *.
  rewrite Sx in Hx. rewrite Sy in Hy.
  destruct (extent_1d (tile_width self) (2 ^ level) (dr_end dim_x - dr_origin dim_x) x
              Htw Hs Hx) as (Wb & Wx & Wf).
  destruct (extent_1d (tile_height self) (2 ^ level) (dr_end dim_y - dr_origin dim_y) y
              Hth Hs Hy) as (Hb & Hy' & Hf).
  unfold tile_extent, grid_patch, int_one_plus_div.
  cbn [p_x_start p_x_end p_y_start p_y_end].
  rewrite Sx, Sy.
  destruct (Z.eqb_spec (2 ^ level) 0) as [E|_]; [lia|].
  do 2 eexists. split; [reflexivity|].
  set (s := 2 ^ level) in *.
  replace (Z.min (dr_origin dim_x + x * tile_width self * s + tile_width self * s - s)
                 (dr_end dim_x) - (dr_origin dim_x + x * tile_width self * s))
    with (Z.min (tile_width self * s - s)
                (dr_end dim_x - dr_origin dim_x - x * tile_width self * s)) by lia.
  replace (Z.min (dr_origin dim_y + y * tile_height self * s + tile_height self * s - s)
                 (dr_end dim_y) - (dr_origin dim_y + y * tile_height self * s))
    with (Z.min (tile_height self * s - s)
                (dr_end dim_y - dr_origin dim_y - y * tile_height self * s)) by lia.
  unfold tile_slab, level_shape.
  cbn [fst snd resolution_x_end resolution_y_end].
  repeat split; try tauto; try lia; try (apply Wf; lia); try (apply Hf; lia); nia.
Qed.

(** Every tile fits the array made for its level.  For a level whose
    steps are [2 ^ level], the extent computed for the patch of a grid
    cell is at least one pixel and at most one tile in each direction,
    a cell that is not in the last column or row has the full tile
    size, and the slab assigned for the cell ends within the shape
    [(3, resolution_y_end + 1, resolution_x_end + 1)] requested from
    [create_tile_directory]. *)
Theorem tile_slab_within_level_shape (self : WriteTiles) (dim_x dim_y : DimRange)
    (level : Z) (g : LevelGeometry) (x y : Z) :
  0 < tile_width self -> 0 < tile_height self -> 0 <= level ->
  dr_step dim_x = 2 ^ level -> dr_step dim_y = 2 ^ level ->
  level_geometry self dim_x dim_y = Ok g ->
  0 <= x < x_tiles g -> 0 <= y < y_tiles g ->
  exists width height,
    tile_extent dim_x dim_y
      (grid_patch (tile_width self) (tile_height self)
                  (dr_origin dim_x) (dr_origin dim_y) (dr_end dim_x) (dr_end dim_y)
                  level x y) = Ok (width, height)
    /\ 1 <= width <= tile_width self /\ 1 <= height <= tile_height self
    /\ (x + 1 < x_tiles g -> width = tile_width self)
    /\ (y + 1 < y_tiles g -> height = tile_height self)
    /\ let '(y_start, y_end, x_start, x_end) := tile_slab self (x, y) width height in
       let '(_, shape_y, shape_x) := level_shape g in
       0 <= y_start /\ y_end <= shape_y /\ 0 <= x_start /\ x_end <= shape_x.
Proof. exact (tile_extent_in_grid self dim_x dim_y level g x y). Qed.

Lemma tile_slab_within_level_shape_witness :
  exists width height,
    tile_extent (mkDimRange 0 2 1000) (mkDimRange 0 2 599)
      (grid_patch 512 512 0 0 1000 599 1 0 0) = Ok (width, height)
    /\ 1 <= width <= 512 /\ 1 <= height <= 512.
Proof.
  destruct (tile_slab_within_level_shape sample_tiles
              (mkDimRange 0 2 1000) (mkDimRange 0 2 599) 1
              (mkLevelGeometry 500 300 1 1) 0 0) as (width & height & E & Bw & Bh & _);
    try reflexivity; try (simpl; lia).
  exists width, height. repeat split; try exact E; simpl in Bw, Bh; lia.
Defined.

(** ** The bounded pool *)

Lemma pool_step_invariant (s s' : pool_state) (e : pool_event) :
  pool_permits s + pool_in_flight s = pool_bound s ->
  0 <= pool_permits s -> 0 <= pool_in_flight s ->
  pool_step s e = Next s' ->
  pool_bound s' = pool_bound s
  /\ pool_permits s' + pool_in_flight s' = pool_bound s'
  /\ 0 <= pool_permits s' /\ 0 <= pool_in_flight s'.
Proof.
  intros I P F. destruct e; simpl; unfold pool_submit, pool_task_done.
  - destruct (Z.leb_spec (pool_permits s) 0); [discriminate|].
    intros E. injection E as <-. simpl. lia.
  - destruct (Z.leb_spec (pool_in_flight s) 0); [discriminate|].
    destruct (Z.leb_spec (pool_bound s) (pool_permits s)); [discriminate|].
    intros E. injection E as <-. simpl. lia.
Qed.

Lemma pool_run_invariant (events : list pool_event) :
  forall s s',
  pool_permits s + pool_in_flight s = pool_bound s ->
  0 <= pool_permits s -> 0 <= pool_in_flight s ->
  pool_run events s = Next s' ->
  pool_bound s' = pool_bound s
  /\ pool_permits s' + pool_in_flight s' = pool_bound s'
  /\ 0 <= pool_permits s' /\ 0 <= pool_in_flight s'.
Proof.
  induction events as [|e events IH]; intros s s' I P F E; simpl in E.
  - injection E as <-. auto.
  - destruct (pool_step s e) as [s1| | |x] eqn:E1; try discriminate.
    destruct (pool_step_invariant s s1 e I P F E1) as (B1 & I1 & P1 & F1).
    destruct (IH s1 s' I1 P1 F1 E) as (B' & I' & P' & F').
    rewrite <- B1. auto.
Qed.

Lemma tile_pool_reachable (self : WriteTiles) (events : list pool_event)
    (s0 s : pool_state) :
  tile_pool self = Ok s0 ->
  pool_run events s0 = Next s ->
  pool_bound s = max_workers self
  /\ pool_permits s + pool_in_flight s = max_workers self
  /\ 0 <= pool_permits s /\ 0 <= pool_in_flight s.
Proof.
  unfold tile_pool, pool_init. intros E0 E.
  destruct (Z.ltb_spec (max_workers self) 0); [discriminate|].
  injection E0 as <-.
  apply pool_run_invariant in E; simpl; try lia.
  destruct E as (B & I & P & F). simpl in B. rewrite B in I. auto.
Qed.

(** The number of tiles in flight never exceeds [max_workers]: after
    any history of submissions and completions that the pool of
    [write_pyramid] gets through, the tasks submitted and not yet done
    are between zero and [max_workers], and the permits left are
    exactly the difference. *)
Theorem tile_pool_bounded (self : WriteTiles) (events : list pool_event)
    (s0 s : pool_state) :
  tile_pool self = Ok s0 ->
  pool_run events s0 = Next s ->
  0 <= pool_in_flight s <= max_workers self
  /\ pool_permits s = max_workers self - pool_in_flight s.
Proof.
  intros E0 E. destruct (tile_pool_reachable self events s0 s E0 E) as (_ & I & P & F). lia.
Qed.

Lemma tile_pool_bounded_witness :
  exists s, pool_run [Submit; Submit; TaskDone; Submit] (mkPool 4 4 0) = Next s
            /\ 0 <= pool_in_flight s <= 4
            /\ pool_permits s = 4 - pool_in_flight s.
Proof.
  eexists. split; [reflexivity|].
  apply (tile_pool_bounded sample_tiles [Submit; Submit; TaskDone; Submit] (mkPool 4 4 0));
    reflexivity.
Defined.

(** The done-callback never over-releases: whatever the order of
    submissions and completions, no history of the pool ends in the
    [ValueError] of [BoundedSemaphore.release]. *)
Theorem tile_pool_release_is_safe (self : WriteTiles) (events : list pool_event)
    (s0 : pool_state) (e : exception) :
  tile_pool self = Ok s0 ->
  pool_run events s0 <> Fails e.
Proof.
  unfold tile_pool, pool_init. intros E0.
  destruct (Z.ltb_spec (max_workers self) 0); [discriminate|].
  injection E0 as <-.
  assert (G : forall evs s,
             pool_permits s + pool_in_flight s = pool_bound s ->
             0 <= pool_permits s -> 0 <= pool_in_flight s ->
             pool_run evs s <> Fails e).
  { induction evs as [|ev evs IH]; intros s I P F; simpl; [discriminate|].
    destruct (pool_step s ev) as [s1| | |x] eqn:E1; try discriminate.
    - destruct (pool_step_invariant s s1 ev I P F E1) as (_ & I1 & P1 & F1).
      now apply IH.
    - exfalso. destruct ev; simpl in E1; unfold pool_submit, pool_task_done in E1.
      + destruct (pool_permits s <=? 0); discriminate.
      + destruct (Z.leb_spec (pool_in_flight s) 0); [discriminate|].
        destruct (Z.leb_spec (pool_bound s) (pool_permits s)); [lia | discriminate]. }
  apply G; simpl; lia.
Qed.

Lemma tile_pool_release_is_safe_witness :
  pool_run [Submit; TaskDone; TaskDone] (mkPool 4 4 0)
  <> Fails (ValueError "Semaphore released too many times").
Proof.
  apply (tile_pool_release_is_safe sample_tiles [Submit; TaskDone; TaskDone] (mkPool 4 4 0)).
  reflexivity.
Defined.

(** [submit] waits exactly when the queue is full: in any state the
    pool can reach, the next submission blocks if and only if
    [max_workers] tasks are in flight; and when it blocks with a
    positive bound, one completion lets it through, filling the queue
    again. *)
Theorem tile_pool_submit_waits_iff_full (self : WriteTiles) (events : list pool_event)
    (s0 s : pool_state) :
  tile_pool self = Ok s0 ->
  pool_run events s0 = Next s ->
  (pool_step s Submit = Waits <-> pool_in_flight s = max_workers self)
  /\ (pool_step s Submit = Waits -> 0 < max_workers self ->
      exists s1 s2, pool_step s TaskDone = Next s1 /\ pool_step s1 Submit = Next s2
                    /\ pool_in_flight s2 = max_workers self).
Proof.
  intros E0 E.
  destruct (tile_pool_reachable self events s0 s E0 E) as (B & I & P & F).
  simpl. unfold pool_submit, pool_task_done. split.
  - destruct (Z.leb_spec (pool_permits s) 0); split; intros; try discriminate; try lia; auto.
  - destruct (Z.leb_spec (pool_permits s) 0) as [Hz|Hz]; [|discriminate].
    intros _ Hpos.
    destruct (Z.leb_spec (pool_in_flight s) 0); [lia|].
    destruct (Z.leb_spec (pool_bound s) (pool_permits s)); [lia|].
    do 2 eexists. split; [reflexivity|]. simpl.
    destruct (Z.leb_spec (pool_permits s + 1) 0); [lia|].
    split; [reflexivity|]. simpl. lia.
Qed.

Lemma tile_pool_submit_waits_iff_full_witness :
  pool_step (mkPool 4 0 4) Submit = Waits <-> pool_in_flight (mkPool 4 0 4) = 4.
Proof.
  apply (tile_pool_submit_waits_iff_full sample_tiles [Submit; Submit; Submit; Submit]
           (mkPool 4 4 0) (mkPool 4 0 4)); reflexivity.
Defined.

(** A bound of zero accepts nothing: with [max_workers = 0] the pool
    is created without error, and no history of events gets past its
    first event, so the first tile submitted waits for ever. *)
Theorem tile_pool_zero_bound_deadlocks (self : WriteTiles) (events : list pool_event) :
  max_workers self = 0 ->
  exists s0, tile_pool self = Ok s0
    /\ pool_step s0 Submit = Waits
    /\ (forall s, pool_run events s0 = Next s -> events = []).
Proof.
  intros Hz. unfold tile_pool, pool_init. rewrite Hz. simpl.
  eexists. split; [reflexivity|]. split; [reflexivity|].
  intros s. destruct events as [|[|] events]; simpl; auto; discriminate.
Qed.

Lemma tile_pool_zero_bound_deadlocks_witness :
  exists s0, tile_pool (mkWriteTiles 512 512 None "tiff" 0 "slide.isyntax" "out") = Ok s0
    /\ pool_step s0 Submit = Waits
    /\ (forall s, pool_run [Submit; TaskDone] s0 = Next s -> [Submit; TaskDone] = []).
Proof.
  apply (tile_pool_zero_bound_deadlocks
           (mkWriteTiles 512 512 None "tiff" 0 "slide.isyntax" "out")
           [Submit; TaskDone]). reflexivity.
Defined.

(** ** One tile *)

Lemma make_planar_raises (pixels : list Z) (w h : nat) (e : base_exception) :
  make_planar pixels w h = Raise e -> e = Exc (ValueError "cannot reshape array").
Proof.
  unfold make_planar, set_shape.
  repeat match goal with
         | |- context [Nat.eqb ?a ?b] => destruct (Nat.eqb a b)
         end; intros E; try discriminate; now injection E.
Qed.

Lemma make_planar_int_raises (pixels : list Z) (w h : Z) (e : base_exception) :
  make_planar_int pixels w h = Raise e -> e = Exc (ValueError "cannot reshape array").
Proof.
  unfold make_planar_int. destruct ((w <? 0) || (h <? 0)).
  - intros E. now injection E.
  - apply make_planar_raises.
Qed.

Lemma write_file_cases (p : string) (c : file_content) (w : world) :
  (exists k, write_file p c w = (Raise (Exc (OSError k p)), w))
  \/ (write_file p c w
      = (Ok tt, mkWorld (w_dirs w)
                        ((p, c) :: filter (fun f => negb (String.eqb p (fst f))) (w_files w))
                        (w_datasets w) (w_log w) (w_engine_opens w))
      /\ is_dir w p = false /\ parent_is_dir w p = true).
Proof.
  unfold write_file. destruct (is_dir w p); [left; eauto|].
  destruct (parent_is_dir w p); simpl; [right; auto | left; eauto].
Qed.

Lemma zarr_assign_cases (store name : string) (y0 y1 x0 x1 : Z) (vs : Z * Z * Z)
    (planes : list (list (list Z))) (w : world) :
  (exists e, zarr_assign store name y0 y1 x0 x1 vs planes w = (Raise (Exc e), w))
  \/ (exists ds, zarr_assign store name y0 y1 x0 x1 vs planes w
                 = (Ok tt, mkWorld (w_dirs w) (w_files w) ds (w_log w) (w_engine_opens w))).
Proof.
  unfold zarr_assign. destruct (find_dataset w store name) as [d|]; [|left; eauto].
  destruct (ds_shape d) as [[c h] wd].
  destruct (shape_eqb vs _); [right; eauto | left; eauto].
Qed.

Lemma write_tile_outcome (self : WriteTiles) (encoder : string -> bool)
    (pixels : list Z) (resolution x_start y_start tile_width tile_height : Z)
    (filename : string) (w : world) :
  exists w',
    write_tile self encoder pixels resolution x_start y_start tile_width tile_height
               filename w = (Ok tt, w')
    /\ w_dirs w' = w_dirs w
    /\ (w_log w' = w_log w
        \/ (exists e,
              w_log w' = w_log w
                         ++ [Traceback e;
                             Printed (failed_to_write x_start (x_start + tile_width)
                                        y_start (y_start + tile_height) filename)])
           /\ (is_chunked self = true \/ file_type self = "tiff"%string ->
               w_files w' = w_files w /\ w_datasets w' = w_datasets w)).
Proof.
  unfold write_tile, try_except.
  assert (Hfail : forall (e : exception) (w1 : world),
            w_dirs w1 = w_dirs w -> w_log w1 = w_log w ->
            (is_chunked self = true \/ file_type self = "tiff"%string ->
             w_files w1 = w_files w /\ w_datasets w1 = w_datasets w) ->
            exists w',
              (print_exc e ;;;
               print (failed_to_write x_start (x_start + tile_width)
                        y_start (y_start + tile_height) filename)) w1 = (Ok tt, w')
              /\ w_dirs w' = w_dirs w
              /\ (w_log w' = w_log w
                  \/ (exists e0,
                        w_log w' = w_log w
                          ++ [Traceback e0;
                              Printed (failed_to_write x_start (x_start + tile_width)
                                         y_start (y_start + tile_height) filename)])
                     /\ (is_chunked self = true \/ file_type self = "tiff"%string ->
                         w_files w' = w_files w /\ w_datasets w' = w_datasets w))).
  { intros e w1 Hd Hl Hk. eexists. split; [reflexivity|]. simpl.
    split; [assumption|]. right. split; [|assumption].
    exists e. rewrite Hl, <- app_assoc. reflexivity. }
  destruct (is_chunked self) eqn:Hc.
  - unfold bind at 1, lift.
    destruct (make_planar_int pixels tile_width tile_height) as [planes|e] eqn:Ep.
    + destruct (zarr_assign_cases filename (str resolution) y_start (y_start + tile_height)
                  x_start (x_start + tile_width) (3, tile_height, tile_width) planes w)
        as [[e ->] | [ds ->]].
      * apply Hfail; auto.
      * eexists. split; [reflexivity|]. simpl. auto.
    + apply make_planar_int_raises in Ep. subst e. apply Hfail; auto.
  - destruct (String.eqb_spec (file_type self) "tiff") as [Ht|Ht].
    + unfold bind at 1, lift.
      destruct (make_planar_int pixels tile_width tile_height) as [planes|e] eqn:Ep.
      * destruct (write_file_cases filename (PlanarTiff planes) w) as [[k ->] | [-> _]].
        -- apply Hfail; auto.
        -- eexists. split; [reflexivity|]. simpl. auto.
      * apply make_planar_int_raises in Ep. subst e. apply Hfail; auto.
    + unfold bind at 1, lift.
      destruct (image_frombuffer tile_width tile_height pixels) as [image|e] eqn:Ei.
      * unfold bind at 1.
        destruct (write_file_cases filename (RawBytes []) w) as [[k ->] | [-> _]].
        -- apply Hfail; auto.
        -- destruct (encoder filename).
           ++ match goal with
              | |- context [write_file filename image ?w1] =>
                  destruct (write_file_cases filename image w1) as [[k ->] | [-> _]]
              end.
              ** apply Hfail; auto; intros [H|H]; congruence.
              ** eexists. split; [reflexivity|]. simpl. auto.
           ++ unfold raise. apply Hfail; auto; intros [H|H]; congruence.
      * unfold image_frombuffer in Ei.
        destruct ((tile_width <? 0) || (tile_height <? 0)).
        -- injection Ei as <-. apply Hfail; auto.
        -- destruct (Z.of_nat (List.length pixels) <? tile_width * tile_height * 3);
             [|discriminate].
           injection Ei as <-. apply Hfail; auto.
Qed.


Lemma make_planar_int_planes (pixels : list Z) (tile_width tile_height : Z) :
  0 <= tile_width -> 0 <= tile_height ->
  Z.of_nat (List.length pixels) = tile_width * tile_height * 3 ->
  exists planes,
    make_planar_int pixels tile_width tile_height = Ok planes
    /\ reinterleave planes = pixels.
Proof.
  intros Hw Hh Hlen. unfold make_planar_int.
  destruct (Z.ltb_spec tile_width 0); [lia|].
  destruct (Z.ltb_spec tile_height 0); [lia|]. cbn [orb].
  destruct (make_planar_planes pixels (Z.to_nat tile_width) (Z.to_nat tile_height))
    as (planes & E & _ & _ & R).
  - apply Nat2Z.inj. rewrite Hlen, !Nat2Z.inj_mul, !Z2Nat.id by lia.
    change (Z.of_nat 3) with 3. ring.
  - exists planes. auto.
Qed.

Lemma is_file_written (p : string) (c : file_content) (fs : list (string * file_content))
    (ds : list string) (dd : list dataset) (l : list log_line) (o : list string) :
  is_file (mkWorld ds ((p, c) :: fs) dd l o) p = true.
Proof. unfold is_file. simpl. now rewrite String.eqb_refl. Qed.

Lemma write_tile_tiff_cases (self : WriteTiles) (encoder : string -> bool)
    (pixels : list Z) (resolution x_start y_start width height : Z)
    (filename : string) (w : world) :
  file_type self = "tiff"%string ->
  0 <= width -> 0 <= height ->
  Z.of_nat (List.length pixels) = width * height * 3 ->
  exists w',
    write_tile self encoder pixels resolution x_start y_start width height filename w
    = (Ok tt, w')
    /\ if parent_is_dir w filename && negb (is_dir w filename)
       then (exists planes,
               w_files w' = (filename, PlanarTiff planes)
                            :: filter (fun f => negb (String.eqb filename (fst f))) (w_files w)
               /\ reinterleave planes = pixels)
            /\ is_file w' filename = true
            /\ w_log w' = w_log w
       else w_files w' = w_files w
            /\ exists k,
                 w_log w' = w_log w
                   ++ [Traceback (OSError k filename);
                       Printed (failed_to_write x_start (x_start + width)
                                  y_start (y_start + height) filename)].
Proof.
  intros Ht Hw Hh Hlen.
  destruct (make_planar_int_planes pixels width height Hw Hh Hlen) as (planes & Ep & R).
  unfold write_tile, try_except, is_chunked. rewrite Ht. cbn [String.eqb Ascii.eqb Bool.eqb orb].
  unfold bind at 1, lift. rewrite Ep.
  unfold write_file.
  destruct (is_dir w filename) eqn:Hd.
  - rewrite andb_false_r. eexists. split; [reflexivity|]. simpl.
    split; [reflexivity|]. eexists. rewrite <- app_assoc. reflexivity.
  - destruct (parent_is_dir w filename) eqn:Hp; cbn [negb andb].
    + eexists. split; [reflexivity|]. split; [|split].
      * exists planes. split; [reflexivity | assumption].
      * apply is_file_written.
      * reflexivity.
    + eexists. split; [reflexivity|]. simpl.
      split; [reflexivity|]. eexists. rewrite <- app_assoc. reflexivity.
Qed.



(** ** Tiles in a chunked array *)

Lemma slice_length_inside (a b n : Z) :
  0 <= a -> a <= b -> b <= n -> slice_length a b n = b - a.
Proof.
  intros Ha Hab Hb. unfold slice_length, slice_bound.
  destruct (Z.ltb_spec b 0); destruct (Z.ltb_spec a 0); lia.
Qed.

Lemma same_dataset_add_write (store name : string) (a : array_write) (d : dataset) :
  same_dataset store name (add_write a d) = same_dataset store name d.
Proof. reflexivity. Qed.

Lemma find_dataset_after_write (store name : string) (a : array_write)
    (ds : list dataset) (d : dataset) :
  find (same_dataset store name) ds = Some d ->
  find (same_dataset store name)
       (map (fun d' => if same_dataset store name d' then add_write a d' else d') ds)
  = Some (add_write a d).
Proof.
  induction ds as [|d0 ds IH]; cbn [map find]; [discriminate|].
  destruct (same_dataset store name d0) eqn:E.
  - intros H. injection H as <-. now rewrite same_dataset_add_write, E.
  - intros H. rewrite E. auto.
Qed.

(** A planned tile of a chunked format is stored without complaint.
    When the array of the level has the shape that [write_pyramid]
    asks for, the steps of the level are [2 ^ level] and the buffer
    holds [width * height * 3] bytes for the extent computed from the
    patch of a grid cell, [write_tile] succeeds for that cell: the
    selection has exactly the shape of the planes, the array records
    the assignment of the planes whose interleaving is the buffer,
    and nothing is printed. *)
Theorem write_tile_chunked_stores_planned_tile (self : WriteTiles)
    (encoder : string -> bool) (dim_x dim_y : DimRange) (level : Z) (g : LevelGeometry)
    (x y : Z) (store : string) (d : dataset) (w : world) :
  is_chunked self = true ->
  0 < tile_width self -> 0 < tile_height self -> 0 <= level ->
  dr_step dim_x = 2 ^ level -> dr_step dim_y = 2 ^ level ->
  level_geometry self dim_x dim_y = Ok g ->
  0 <= x < x_tiles g -> 0 <= y < y_tiles g ->
  find_dataset w store (str level) = Some d ->
  ds_shape d = level_shape g ->
  exists width height,
    tile_extent dim_x dim_y
      (grid_patch (tile_width self) (tile_height self)
                  (dr_origin dim_x) (dr_origin dim_y) (dr_end dim_x) (dr_end dim_y)
                  level x y) = Ok (width, height)
    /\ forall pixels,
         Z.of_nat (List.length pixels) = width * height * 3 ->
         exists planes w',
           write_tile self encoder pixels level
                      (x * tile_width self) (y * tile_height self) width height store w
           = (Ok tt, w')
           /\ reinterleave planes = pixels
           /\ find_dataset w' store (str level)
              = Some (add_write
                        (mkArrayWrite (y * tile_height self) (y * tile_height self + height)
                                      (x * tile_width self) (x * tile_width self + width)
                                      planes) d)
           /\ w_log w' = w_log w /\ w_files w' = w_files w /\ w_dirs w' = w_dirs w.
Proof.
  intros Hc Htw Hth Hl Sx Sy Hg Hx Hy Hf Hs.
  destruct (tile_extent_in_grid self dim_x dim_y level g x y Htw Hth Hl Sx Sy Hg Hx Hy)
    as (width & height & E & Bw & Bh & _ & _ & Hslab).
  exists width, height. split; [exact E|].
  intros pixels Hlen.
  destruct (make_planar_int_planes pixels width height ltac:(lia) ltac:(lia) Hlen)
    as (planes & Ep & R).
  unfold tile_slab, level_shape in Hslab. cbn [fst snd] in Hslab.
  destruct Hslab as (Hy0 & Hy1 & Hx0 & Hx1).
  exists planes.
  unfold write_tile, try_except. rewrite Hc.
  unfold bind at 1, lift. rewrite Ep.
  unfold zarr_assign. rewrite Hf, Hs. unfold level_shape, shape_eqb.
  rewrite !slice_length_inside by lia.
  replace (y * tile_height self + height - y * tile_height self) with height by ring.
  replace (x * tile_width self + width - x * tile_width self) with width by ring.
  rewrite !Z.eqb_refl. cbn [andb].
  eexists. split; [reflexivity|]. split; [exact R|].
  split; [|auto].
  unfold find_dataset. cbn [w_datasets].
  now apply find_dataset_after_write.
Qed.

Lemma write_tile_chunked_stores_planned_tile_witness :
  exists width height,
    tile_extent (mkDimRange 0 1 3) (mkDimRange 0 1 2)
      (grid_patch 2 2 0 0 3 2 0 1 0) = Ok (width, height).
Proof.
  destruct (write_tile_chunked_stores_planned_tile small_tiles (fun _ => true)
              (mkDimRange 0 1 3) (mkDimRange 0 1 2) 0 (mkLevelGeometry 3 2 2 1) 1 0
              "out/pyramid.zarr"
              (mkDataset "out/pyramid.zarr" "0" (3, 3, 4) (3, 2, 2) [])
              (mkWorld ["out"%string] []
                 [mkDataset "out/pyramid.zarr" "0" (3, 3, 4) (3, 2, 2) []] [] []))
    as (width & height & E & _); try reflexivity; try (simpl; lia).
  exists width, height. exact E.
Defined.

(** ** Arrays and directories of the levels *)




(** ** A level of discrete files, from directory to tile *)

Lemma only_adds_columns_refl (td : string) (w : world) : only_adds_columns td w w.
Proof. split; auto. Qed.

Lemma only_adds_columns_trans (td : string) (w1 w2 w3 : world) :
  only_adds_columns td w1 w2 -> only_adds_columns td w2 w3 -> only_adds_columns td w1 w3.
Proof.
  intros [F12 D12] [F23 D23]. split; [congruence|].
  intros p H. destruct (D23 p H) as [H2 | H2]; auto.
Qed.

Lemma create_x_directory_frame (self : WriteTiles) (td : string) (n : Z)
    (w w' : world) (r : result unit) :
  create_x_directory self td n w = (r, w') -> only_adds_columns td w w'.
Proof.
  unfold create_x_directory.
  destruct (is_chunked self).
  { intros E. injection E as <- <-. apply only_adds_columns_refl. }
  unfold bind, os_path_exists.
  destruct (path_exists w (path_join td (str n))) eqn:He; cbn [negb].
  { intros E. injection E as <- <-. apply only_adds_columns_refl. }
  unfold os_mkdir. rewrite He.
  destruct (negb (parent_is_dir w (path_join td (str n)))).
  { intros E. injection E as <- <-. apply only_adds_columns_refl. }
  intros E. injection E as <- <-. split; [reflexivity|].
  intros p. unfold is_dir. cbn [w_dirs existsb].
  destruct (String.eqb_spec p (path_join td (str n))) as [->|_]; eauto.
Qed.

Lemma for_each_rel {X S : Type} (R : world -> world -> Prop) (body : X -> S -> M S) :
  (forall w, R w w) ->
  (forall w1 w2 w3, R w1 w2 -> R w2 w3 -> R w1 w3) ->
  (forall x s w r w', body x s w = (r, w') -> R w w') ->
  forall xs s w r w', for_each xs body s w = (r, w') -> R w w'.
Proof.
  intros Hrefl Htrans Hb. induction xs as [|x xs IH]; intros s w r w' E; simpl in E.
  - injection E as <- <-. apply Hrefl.
  - unfold bind in E. destruct (body x s w) as [[s1|e] w1] eqn:E1.
    + eapply Htrans; [eapply Hb; exact E1 | eapply IH; exact E].
    + injection E as <- <-. eapply Hb; exact E1.
Qed.

Lemma create_patch_list_frame (self : WriteTiles) (ixe iye : Z) (tiles tile_size origin : Z * Z)
    (level : Z) (td : string) (w w' : world) (r : result (list Patch * list (Z * Z))) :
  create_patch_list self ixe iye tiles tile_size origin level td w = (r, w') ->
  only_adds_columns td w w'.
Proof.
  unfold create_patch_list.
  apply (for_each_rel (only_adds_columns td));
    [apply only_adds_columns_refl | apply only_adds_columns_trans|].
  intros y s w0 r0 w1.
  apply (for_each_rel (only_adds_columns td));
    [apply only_adds_columns_refl | apply only_adds_columns_trans|].
  intros x s0 w2 r1 w3 E.
  apply bind_ret_inv in E. destruct E as (r2 & E & _).
  eapply create_x_directory_frame; exact E.
Qed.

Lemma is_dir_same_dirs (w w' : world) (p : string) :
  w_dirs w' = w_dirs w -> is_dir w' p = is_dir w p.
Proof. unfold is_dir. now intros ->. Qed.

Lemma is_file_same_files (w w' : world) (p : string) :
  w_files w' = w_files w -> is_file w' p = is_file w p.
Proof. unfold is_file. now intros ->. Qed.

Lemma append_not_self (a b : string) : is_empty b = false -> (a ++ b)%string <> a.
Proof.
  intros Hb E. assert (L : String.length (a ++ b) = String.length a) by now rewrite E.
  assert (La : forall x y : string,
             String.length (x ++ y) = (String.length x + String.length y)%nat).
  { induction x; simpl; auto. }
  rewrite La in L. destruct b; [discriminate | simpl in L; lia].
Qed.

Lemma no_slash_has_no_slash (a b : string) : no_slash (a ++ "/" ++ b) = false.
Proof.
  unfold no_slash. rewrite list_ascii_of_string_app, forallb_app. simpl.
  apply andb_false_r.
Qed.

(** For the TIFF format a level goes from nothing to tiles without a
    failure.  If the slide directory exists and neither the directory
    of the level nor anything below it does, then
    [create_tile_directory] makes [<slide_directory>/<resolution>],
    [create_patch_list] succeeds there, and from then on, in every
    state of the disk with the same directories, [write_tile] stores
    the tile of every planned cell under its file name, for every
    buffer of [width * height * 3] bytes, and prints nothing. *)
Theorem planned_tiff_tiles_are_written (self : WriteTiles) (encoder : string -> bool)
    (resolution shape_x shape_y ixe iye xt yt ox oy : Z) (w : world) :
  file_type self = "tiff"%string ->
  plain_dir (slide_directory self) = true ->
  is_dir w (slide_directory self) = true ->
  let td := path_join (slide_directory self) (str resolution) in
  path_exists w td = false ->
  empty_below td w ->
  exists w1 patches ids w2,
    create_tile_directory self resolution shape_x shape_y w = (Ok td, w1)
    /\ create_patch_list self ixe iye (xt, yt) (tile_width self, tile_height self)
         (ox, oy) resolution td w1 = (Ok (patches, ids), w2)
    /\ forall id pixels width height w',
         In id ids -> 0 <= width -> 0 <= height ->
         Z.of_nat (List.length pixels) = width * height * 3 ->
         w_dirs w' = w_dirs w2 ->
         exists w3,
           write_tile self encoder pixels resolution
                      (fst id * tile_width self) (snd id * tile_height self)
                      width height (tile_filename_of_cell self td id) w' = (Ok tt, w3)
           /\ is_file w3 (tile_filename_of_cell self td id) = true
           /\ w_log w3 = w_log w' /\ w_dirs w3 = w_dirs w'.
Proof.
  intros Ht Hs Hsd td Hfresh Hbelow.
  assert (Hc : is_chunked self = false) by (unfold is_chunked; now rewrite Ht).
  assert (He : no_slash (file_type self) = true) by now rewrite Ht.
  assert (Hd : plain_dir td = true) by now apply column_directory_plain.
  assert (Etd : td = (slide_directory self ++ "/" ++ str resolution)%string).
  { unfold td. apply path_join_plain; [assumption|].
    apply no_slash_startswith, str_no_slash. }
  set (w1 := mkWorld (td :: w_dirs w) (w_files w) (w_datasets w) (w_log w)
                     (w_engine_opens w)).
  assert (E1 : create_tile_directory self resolution shape_x shape_y w = (Ok td, w1)).
  { unfold create_tile_directory. rewrite Hc. fold td.
    unfold bind, os_mkdir. rewrite Hfresh. unfold parent_is_dir.
    unfold td at 1 2. rewrite dirname_path_join by (auto using str_no_slash).
    rewrite Hsd, orb_true_r. reflexivity. }
  assert (Hw1 : is_dir w1 td = true).
  { unfold is_dir, w1. cbn [w_dirs existsb]. now rewrite String.eqb_refl. }
  destruct (planning_makes_columns self ixe iye xt yt ox oy resolution td w1 Hc Hd Hw1 He)
    as (patches & ids & w2 & E2 & _ & Hcols).
  pose proof (create_patch_list_frame _ _ _ _ _ _ _ _ _ _ _ E2) as [Hfiles Hdirs].
  exists w1, patches, ids, w2. split; [exact E1|]. split; [exact E2|].
  intros id pixels width height w' Hid Hwd Hht Hlen Hsame.
  set (fn := tile_filename_of_cell self td id).
  assert (Efn : fn = (td ++ "/" ++ str (fst id * tile_width self) ++ "/"
                      ++ str (snd id * tile_height self) ++ "." ++ file_type self)%string)
    by (unfold fn, tile_filename_of_cell; now apply get_tile_filename_discrete).
  assert (Ecol : dirname fn = (td ++ "/" ++ str (fst id * tile_width self))%string).
  { unfold fn, tile_filename_of_cell.
    rewrite tile_file_in_column_directory by assumption.
    apply path_join_plain; [assumption|]. apply no_slash_startswith, str_no_slash. }
  assert (Hpar : parent_is_dir w' fn = true).
  { unfold parent_is_dir. rewrite (is_dir_same_dirs w2 w') by assumption.
    pose proof (Hcols id Hid) as Hx. fold fn in Hx.
    unfold path_exists in Hx.
    rewrite (is_file_same_files w1 w2) in Hx by assumption.
    assert (Hf : is_file w1 (dirname fn) = false).
    { rewrite Ecol. specialize (Hbelow (str (fst id * tile_width self))).
      unfold path_exists in Hbelow. apply orb_false_iff in Hbelow. apply Hbelow. }
    rewrite Hf, orb_false_r in Hx. rewrite Hx. apply orb_true_r. }
  assert (Hnot : is_dir w' fn = false).
  { rewrite (is_dir_same_dirs w2 w') by assumption.
    destruct (is_dir w2 fn) eqn:Hdir; [exfalso | reflexivity].
    destruct (Hdirs fn Hdir) as [H1 | [c Hc']].
    - unfold is_dir, w1 in H1. cbn [w_dirs existsb] in H1.
      apply orb_true_iff in H1. destruct H1 as [H1 | H1].
      + apply String.eqb_eq in H1. rewrite Efn in H1.
        revert H1. apply append_not_self. reflexivity.
      + specialize (Hbelow (str (fst id * tile_width self) ++ "/"
                            ++ str (snd id * tile_height self) ++ "." ++ file_type self)%string).
        rewrite <- Efn in Hbelow. unfold path_exists in Hbelow.
        apply orb_false_iff in Hbelow. unfold is_dir in Hbelow.
        destruct Hbelow as [Hb _]. congruence.
    - rewrite path_join_plain in Hc'
        by (auto using no_slash_startswith, str_no_slash).
      rewrite Efn in Hc'. apply append_inv_head in Hc'.
      apply (append_inv_head "/") in Hc'.
      pose proof (str_no_slash c) as Hn. rewrite <- Hc' in Hn.
      rewrite no_slash_has_no_slash in Hn. discriminate. }
  destruct (write_tile_tiff_cases self encoder pixels resolution
              (fst id * tile_width self) (snd id * tile_height self)
              width height fn w' Ht Hwd Hht Hlen) as (w3 & E3 & H3).
  rewrite Hpar, Hnot in H3. cbn [negb andb] in H3.
  destruct H3 as (_ & Hfile & Hlog).
  exists w3. repeat split; try assumption.
  destruct (write_tile_outcome self encoder pixels resolution
              (fst id * tile_width self) (snd id * tile_height self)
              width height fn w') as (w4 & E4 & D4 & _).
  rewrite E3 in E4. now injection E4 as <-.
Qed.

Lemma planned_tiff_tiles_are_written_witness :
  exists w1 patches ids w2,
    create_tile_directory sample_tiles 0 1001 600 (mkWorld ["out"%string] [] [] [] [])
    = (Ok "out/0"%string, w1)
    /\ create_patch_list sample_tiles 1000 599 (2, 2) (512, 512) (0, 0) 0 "out/0" w1
       = (Ok (patches, ids), w2).
Proof.
  destruct (planned_tiff_tiles_are_written sample_tiles (fun _ => true)
              0 1001 600 1000 599 2 2 0 0 (mkWorld ["out"%string] [] [] [] []))
    as (w1 & patches & ids & w2 & E1 & E2 & _);
    try reflexivity.
  - intros s. reflexivity.
  - exists w1, patches, ids, w2. split; [exact E1 | exact E2].
Defined.

(** ** Opening a conversion *)

Lemma os_mkdir_cases (p : string) (w : world) :
  (exists k, os_mkdir p w = (Raise (Exc (OSError k p)), w))
  \/ (os_mkdir p w = (Ok tt, mkWorld (p :: w_dirs w) (w_files w) (w_datasets w)
                                     (w_log w) (w_engine_opens w))
      /\ path_exists w p = false /\ parent_is_dir w p = true).
Proof.
  unfold os_mkdir. destruct (path_exists w p); [left; eauto|].
  destruct (parent_is_dir w p); simpl; [right; auto | left; eauto].
Qed.

(** An output directory is used once.  [__init__] makes the directory
    before it opens the input, so whenever a call got past [os.mkdir],
    whether the engine then opened the input or refused it, the
    directory is on disk, and every later call with the same output
    path raises [FileExistsError] and opens nothing, whatever its
    other arguments. *)
Theorem init_output_is_single_use (readable readable' : string -> bool)
    (tw th tw' th' : Z) (res res' : option Z) (ft ft' : string) (mw mw' : Z)
    (input input' output : string) (w w1 : world) (r : result WriteTiles) :
  init readable tw th res ft mw input output w = (r, w1) ->
  (forall k p, r <> Raise (Exc (OSError k p))) ->
  is_dir w1 output = true
  /\ (readable input = false -> exists e, r = Raise e)
  /\ init readable' tw' th' res' ft' mw' input' output w1
     = (Raise (Exc (OSError FileExistsError output)), w1).
Proof.
  unfold init. cbn [slide_directory]. unfold bind at 1.
  destruct (os_mkdir_cases output w) as [[k ->] | [-> _]].
  { intros E Hr. injection E as <- <-. exfalso. eapply Hr. reflexivity. }
  intros E _.
  assert (Hd : forall l o, is_dir (mkWorld (output :: w_dirs w) (w_files w) (w_datasets w) l o)
                                  output = true).
  { intros l o. unfold is_dir. cbn [w_dirs existsb]. now rewrite String.eqb_refl. }
  unfold bind, engine_open in E. cbn [w_dirs w_files w_datasets w_log w_engine_opens] in E.
  assert (Hw1 : is_dir w1 output = true).
  { destruct (readable input); injection E as <- <-; apply Hd. }
  split; [exact Hw1|]. split.
  - intros Hno. rewrite Hno in E. injection E as <- <-. eauto.
  - unfold bind, os_mkdir, path_exists. now rewrite Hw1.
Qed.

Lemma init_output_is_single_use_witness :
  init (fun _ => true) 256 256 None "zarr" 2 "other.isyntax" "out"
       (mkWorld ["out"%string] [] [] [] ["slide.isyntax"%string])
  = (Raise (Exc (OSError FileExistsError "out")),
     mkWorld ["out"%string] [] [] [] ["slide.isyntax"%string]).
Proof.
  apply (init_output_is_single_use (fun _ => true) (fun _ => true)
           512 512 256 256 None None "tiff" "zarr" 4 2
           "slide.isyntax" "other.isyntax" "out" empty_world
           (mkWorld ["out"%string] [] [] [] ["slide.isyntax"%string])
           (Ok sample_tiles)).
  - reflexivity.
  - discriminate.
Defined.

(** ** Label and macro images *)

Lemma find_image_type_none (images : list image_container) (t : string) :
  find_image_type images t = None <-> (forall c, In c images -> IMAGE_TYPE c <> t).
Proof.
  unfold find_image_type. split.
  - intros H c Hc E. pose proof (find_none _ _ H c Hc) as F. cbn beta in F.
    rewrite E, String.eqb_refl in F. discriminate.
  - intros H. destruct (find _ images) as [c|] eqn:F; [exfalso | reflexivity].
    apply find_some in F. destruct F as [Hc E]. apply String.eqb_eq in E.
    now apply (H c Hc).
Qed.

Lemma find_image_type_some (images : list image_container) (t : string)
    (c : image_container) :
  find_image_type images t = Some c -> In c images /\ IMAGE_TYPE c = t.
Proof.
  unfold find_image_type. intros F. apply find_some in F. destruct F as [Hc E].
  apply String.eqb_eq in E. auto.
Qed.

(** [write_image_type] does nothing exactly when the slide has no
    image of the type: it returns normally with the disk and the
    console as they were if and only if no image carries the type.
    With such an image the call either raises or prints its line. *)
Theorem write_image_type_idle_iff_absent (self : WriteTiles)
    (images : list image_container) (image_type : string) (w : world) :
  write_image_type self images image_type w = (Ok tt, w)
  <-> (forall c, In c images -> IMAGE_TYPE c <> image_type).
Proof.
  rewrite <- find_image_type_none. unfold write_image_type.
  destruct (find_image_type images image_type) as [c|]; split;
    try discriminate; try reflexivity.
  unfold bind.
  destruct (write_file_cases
              (path_join (slide_directory self) (image_type ++ ".jpg"))
              (RawBytes (IMAGE_DATA c)) w) as [[k ->] | [-> _]]; [discriminate|].
  unfold print. cbn [w_log w_dirs w_files w_datasets w_engine_opens].
  intros E. exfalso.
  assert (L : w_log w = (w_log w ++ [Printed ("wrote " ++ image_type ++ " image")])%list).
  { injection E as E. rewrite <- E at 1. reflexivity. }
  apply (f_equal (@List.length log_line)) in L.
  rewrite length_app in L. simpl in L. lia.
Qed.

(** The label and the macro image do not disturb each other.  When
    the slide directory exists and the slide has both images, writing
    the label image and then the macro image succeeds, leaves
    [LABELIMAGE.jpg] and [MACROIMAGE.jpg] in the slide directory, each
    with the bytes of the first image of its type, and prints the two
    lines in that order. *)
Theorem label_and_macro_images_coexist (self : WriteTiles)
    (images : list image_container) (label macro : image_container) (w : world) :
  plain_dir (slide_directory self) = true ->
  is_dir w (slide_directory self) = true ->
  find_image_type images "LABELIMAGE" = Some label ->
  find_image_type images "MACROIMAGE" = Some macro ->
  is_dir w (path_join (slide_directory self) "LABELIMAGE.jpg") = false ->
  is_dir w (path_join (slide_directory self) "MACROIMAGE.jpg") = false ->
  exists w',
    (write_label_image self images ;;; write_macro_image self images) w = (Ok tt, w')
    /\ In (path_join (slide_directory self) "LABELIMAGE.jpg", RawBytes (IMAGE_DATA label))
          (w_files w')
    /\ In (path_join (slide_directory self) "MACROIMAGE.jpg", RawBytes (IMAGE_DATA macro))
          (w_files w')
    /\ w_log w' = (w_log w ++ [Printed "wrote LABELIMAGE image";
                               Printed "wrote MACROIMAGE image"])%list
    /\ w_dirs w' = w_dirs w.
Proof.
  intros Hs Hd Hl Hm Nl Nm.
  unfold write_label_image, write_macro_image, write_image_type.
  rewrite Hl, Hm. cbn [append].
  set (lf := path_join (slide_directory self) "LABELIMAGE.jpg") in *.
  set (mf := path_join (slide_directory self) "MACROIMAGE.jpg") in *.
  assert (Pl : forall w0, is_dir w0 (slide_directory self) = true -> parent_is_dir w0 lf = true).
  { intros w0 H. unfold parent_is_dir, lf.
    rewrite dirname_path_join by (auto; reflexivity). rewrite H. apply orb_true_r. }
  assert (Pm : forall w0, is_dir w0 (slide_directory self) = true -> parent_is_dir w0 mf = true).
  { intros w0 H. unfold parent_is_dir, mf.
    rewrite dirname_path_join by (auto; reflexivity). rewrite H. apply orb_true_r. }
  assert (Hne : String.eqb mf lf = false).
  { apply String.eqb_neq. unfold mf, lf.
    rewrite !path_join_plain by (auto; reflexivity).
    intros E. apply append_inv_head in E. discriminate. }
  unfold bind, write_file, print.
  rewrite Nl, (Pl w Hd). cbn [negb w_dirs w_files w_datasets w_log w_engine_opens].
  unfold is_dir at 1. cbn [w_dirs]. fold (is_dir w mf). rewrite Nm.
  unfold parent_is_dir at 1. unfold is_dir at 1. cbn [w_dirs].
  fold (is_dir w (dirname mf)). fold (parent_is_dir w mf). rewrite (Pm w Hd).
  cbn [negb w_dirs w_files w_datasets w_log w_engine_opens].
  eexists. split; [reflexivity|].
  cbn [w_dirs w_files w_datasets w_log w_engine_opens filter fst].
  rewrite Hne. cbn [negb].
  split; [right; left; reflexivity|]. split; [left; reflexivity|].
  split; [now rewrite <- app_assoc | reflexivity].
Qed.

Lemma label_and_macro_images_coexist_witness :
  exists w',
    (write_label_image sample_tiles [mkImage "MACROIMAGE" [7; 8] None;
                                     mkImage "LABELIMAGE" [1; 2; 3] None] ;;;
     write_macro_image sample_tiles [mkImage "MACROIMAGE" [7; 8] None;
                                     mkImage "LABELIMAGE" [1; 2; 3] None]) sample_world
    = (Ok tt, w')
    /\ In ("out/LABELIMAGE.jpg"%string, RawBytes [1; 2; 3]) (w_files w')
    /\ In ("out/MACROIMAGE.jpg"%string, RawBytes [7; 8]) (w_files w').
Proof.
  destruct (label_and_macro_images_coexist sample_tiles
              [mkImage "MACROIMAGE" [7; 8] None; mkImage "LABELIMAGE" [1; 2; 3] None]
              (mkImage "LABELIMAGE" [1; 2; 3] None) (mkImage "MACROIMAGE" [7; 8] None)
              sample_world) as (w' & E & L & Mc & _); try reflexivity.
  exists w'. split; [exact E|]. split; [exact L | exact Mc].
Defined.

(** [write_pyramid] stops at its first lines in two ways.  Without an
    image of type WSI the attribute access on [None] raises
    [AttributeError]; the [RuntimeError] "No valid data envelopes" is
    raised exactly when the first WSI image has no envelopes, even if
    a later WSI image has some; otherwise the envelopes of the first
    WSI image are used. *)
Theorem scanned_areas_failures (images : list image_container) :
  (scanned_areas images
   = Raise (Exc (AttributeError
                   "'NoneType' object has no attribute 'IMAGE_VALID_DATA_ENVELOPES'"))
   <-> (forall c, In c images -> IMAGE_TYPE c <> "WSI"%string))
  /\ (scanned_areas images = Raise (Exc (RuntimeError "No valid data envelopes"))
      <-> exists before c after,
            images = (before ++ c :: after)%list
            /\ (forall b, In b before -> IMAGE_TYPE b <> "WSI"%string)
            /\ IMAGE_TYPE c = "WSI"%string
            /\ IMAGE_VALID_DATA_ENVELOPES c = None).
Proof.
  unfold scanned_areas. split.
  - rewrite <- find_image_type_none.
    destruct (find_image_type images "WSI") as [c|]; [|tauto].
    split; [|discriminate]. destruct (IMAGE_VALID_DATA_ENVELOPES c); discriminate.
  - unfold find_image_type.
    induction images as [|a images IH]; cbn [find].
    + split; [discriminate|]. intros (before & c & after & E & _).
      destruct before; discriminate.
    + destruct (String.eqb_spec "WSI" (IMAGE_TYPE a)) as [Ea|Ea].
      * split.
        -- intros H. exists [], a, images. repeat split; auto; try easy.
           destruct (IMAGE_VALID_DATA_ENVELOPES a); [discriminate | reflexivity].
        -- intros (before & c & after & E & Hb & Hc & Hn).
           destruct before as [|b before].
           ++ injection E as <- <-. now rewrite Hn.
           ++ injection E as <- _. exfalso. apply (Hb a); [now left | auto].
      * rewrite IH. split.
        -- intros (before & c & after & E & Hb & Hc & Hn).
           exists (a :: before), c, after. rewrite E. repeat split; auto.
           intros b [<- | Hin]; [congruence | auto].
        -- intros (before & c & after & E & Hb & Hc & Hn).
           destruct before as [|b before].
           ++ injection E as <- <-. congruence.
           ++ injection E as <- E. exists before, c, after. repeat split; auto.
              intros b' Hin. apply Hb. now right.
Qed.

(** ** Destinations of the dispatched tiles *)

Lemma combine_right_unique {A B : Type} (rs : list A) : forall (ids : list B) (a b : A) (i : B),
  NoDup ids -> In (a, i) (combine rs ids) -> In (b, i) (combine rs ids) -> a = b.
Proof.
  induction rs as [|r rs IH]; intros [|i0 ids] a b i Hnd Ha Hb; simpl in *; try tauto.
  inversion Hnd as [|? ? Hni Hnd']; subst.
  destruct Ha as [Ha | Ha]; destruct Hb as [Hb | Hb].
  - congruence.
  - injection Ha as <- <-. apply in_combine_r in Hb. contradiction.
  - injection Hb as <- <-. apply in_combine_r in Ha. contradiction.
  - eapply IH; eassumption.
Qed.

Lemma NoDup_snd_of_paired {A B : Type} (C : list (A * B)) (jobs : list (A * B)) :
  (forall a b i, In (a, i) C -> In (b, i) C -> a = b) ->
  NoDup (map fst jobs) -> (forall j, In j jobs -> In j C) ->
  NoDup (map snd jobs).
Proof.
  intros Hu. induction jobs as [|[r i] jobs IH]; intros Hnd Hin; simpl; [constructor|].
  simpl in Hnd. inversion Hnd as [|? ? Hnr Hnd']; subst.
  constructor.
  - intros Hi. apply in_map_iff in Hi. destruct Hi as ([b i'] & E & Hb). simpl in E. subst i'.
    assert (b = r) by (apply (Hu b r i); apply Hin; [now right | now left]).
    subst b. apply Hnr. apply in_map_iff. exists (r, i). auto.
  - apply IH; [assumption|]. intros j Hj. apply Hin. now right.
Qed.

Lemma NoDup_map_injective {A B : Type} (f : A -> B) (l : list A) :
  (forall a b, f a = f b -> a = b) -> NoDup l -> NoDup (map f l).
Proof.
  intros Hf. induction 1 as [|a l Hni Hnd IH]; simpl; constructor; [|assumption].
  intros Hi. apply in_map_iff in Hi. destruct Hi as (b & E & Hb).
  apply Hf in E. now subst.
Qed.

(** No two tile jobs of a level write the same file.  For a format of
    discrete files, in whatever order the engine delivers the pending
    regions, the file names that the dispatch loop derives for the
    regions it processes are pairwise different, so the jobs running
    side by side in the pool never share a destination. *)
Theorem dispatched_tiles_have_distinct_files (self : WriteTiles) (td : string)
    (ready rs : list region) (ids : list (Z * Z)) :
  is_chunked self = false -> plain_dir td = true ->
  tile_width self <> 0 -> tile_height self <> 0 ->
  List.length rs = List.length ids -> NoDup ids ->
  NoDup ready -> incl ready rs ->
  exists jobs rest,
    dispatch ready (rs, ids) = Ok (jobs, rest)
    /\ List.length jobs = List.length ready
    /\ NoDup (map (fun j => tile_filename_of_cell self td (snd j)) jobs).
Proof.
  intros Hc Hd Hw Hh Hlen Hnd Hr Hincl.
  destruct (dispatch_pairs ready rs ids Hlen Hnd Hr Hincl)
    as (jobs & rs' & ids' & E & Hfst & Hin & _).
  exists jobs, (rs', ids'). split; [exact E|]. split.
  - rewrite <- Hfst. now rewrite length_map.
  - rewrite <- (map_map snd (tile_filename_of_cell self td)).
    apply NoDup_map_injective.
    + intros a b. now apply tile_filename_of_cell_inj.
    + apply (NoDup_snd_of_paired (combine rs ids)).
      * intros a b i. now apply combine_right_unique.
      * now rewrite Hfst.
      * exact Hin.
Qed.

Lemma dispatched_tiles_have_distinct_files_witness :
  exists jobs rest,
    dispatch [7; 5]%nat ([5; 6; 7]%nat, [(0, 0); (1, 0); (0, 1)]) = Ok (jobs, rest)
    /\ List.length jobs = 2%nat
    /\ NoDup (map (fun j => tile_filename_of_cell sample_tiles "out/0" (snd j)) jobs).
Proof.
  apply (dispatched_tiles_have_distinct_files sample_tiles "out/0" [7; 5]%nat [5; 6; 7]%nat
           [(0, 0); (1, 0); (0, 1)]); try reflexivity; try (simpl; lia).
  - repeat constructor; simpl; intuition congruence.
  - repeat constructor; simpl; intuition congruence.
  - intros r [<- | [<- | []]]; simpl; auto.
Defined.

(** ** The slabs of a level tile its pixels *)




